(** * migrate_artifactory_to_jfrog.py: normalizer, extractor and synthesizer

    A shallow embedding of the conversion core of
    [src/migrate_artifactory_to_jfrog.py] and the properties stated about it.

    A Python [str] is a sequence of Unicode code points; it is modelled as a
    list of code points ([N]).  [str.replace], the [in] operator, [str.join]
    and the fragment of [re] that the script uses are given executable
    definitions, and the functions of the script are written on top of them
    in the order of the source. *)

From Stdlib Require Import Ascii String.
From Stdlib Require Import List NArith Bool Arith Lia.
Import ListNotations.
Local Open Scope list_scope.

Set Implicit Arguments.

(** ** Python strings *)

Definition char := N.
Definition str := list char.

Definition ceq (a b : char) : bool := N.eqb a b.

(** An ASCII literal of the source as a list of code points. *)
Definition lit (s : String.string) : str :=
  List.map N_of_ascii (String.list_ascii_of_string s).
Arguments lit s%_string_scope.

(** Code points of the source that are not written inside an ASCII literal. *)
Definition dq : char := 34%N.          (* the double quote *)
Definition sq : char := 39%N.          (* the apostrophe *)
Definition nl : char := 10%N.          (* line feed *)
Definition check_mark : char := 9989%N.     (* U+2705 *)
Definition right_arrow : char := 8594%N.    (* U+2192 *)
Definition party_popper : char := 127881%N. (* U+1F389 *)
Definition cross_mark : char := 10060%N.    (* U+274C *)

(** [s.startswith(p)] *)
Fixpoint prefixb (p s : str) : bool :=
  match p, s with
  | [], _ => true
  | _ :: _, [] => false
  | a :: p', b :: s' => ceq a b && prefixb p' s'
  end.

(** [needle in hay] *)
Fixpoint contains (needle hay : str) : bool :=
  prefixb needle hay ||
  match hay with
  | [] => false
  | _ :: hay' => contains needle hay'
  end.

(** [sep.join(parts)] *)
Fixpoint join (sep : str) (parts : list str) : str :=
  match parts with
  | [] => []
  | [p] => p
  | p :: rest => p ++ sep ++ join sep rest
  end.

(** [s.replace(old, new)]: the occurrences of [old] are found from left to
    right and do not overlap.  [skip] counts the characters of a replaced
    occurrence that are still to be passed over. *)
Fixpoint replace_from (old new : str) (skip : nat) (s : str) : str :=
  match s with
  | [] => []
  | c :: s' =>
      match skip with
      | S k => replace_from old new k s'
      | O =>
          if prefixb old s
          then new ++ replace_from old new (length old - 1) s'
          else c :: replace_from old new 0 s'
      end
  end.

(** With an empty [old], Python puts [new] before every character and at
    the end. *)
Definition replace (old new s : str) : str :=
  match old with
  | [] => new ++ flat_map (fun c => c :: new) s
  | _ :: _ => replace_from old new 0 s
  end.

(** ** Normalizer *)

Definition decode_html_entities (content : str) : str :=
  let content := replace (lit "&apos;") [sq] content in
  let content := replace (lit "&quot;") [dq] content in
  let content := replace (lit "&gt;") (lit ">") content in
  let content := replace (lit "&lt;") (lit "<") content in
  let content := replace (lit "&amp;") (lit "&") content in
  content.

(** ** The fragment of [re] used by the extractor

    A pattern is a sequence of nodes.  Matching is by backtracking, a greedy
    repetition trying the longest run first, as in [re].  The patterns of the
    script have one capture group. *)

Inductive node : Type :=
| Ch (p : char -> bool)       (* one character of a class *)
| Many (p : char -> bool)     (* [p*], greedy *)
| Many1 (p : char -> bool)    (* [p+], greedy *)
| GOpen                       (* start of group 1 *)
| GClose.                     (* end of group 1 *)

Definition regex := list node.

(** The state of the matcher: where group 1 was opened (as the input that
    remained there), and the text of group 1 once it is closed.  A group that
    did not take part in the match reads [None], as in Python. *)
Record mstate : Type := MState {
  mark : option str;
  group1 : option str
}.

Definition mstate0 : mstate := MState None None.

(** The greedy repetition of a class [p], followed by the continuation [k]. *)
Fixpoint greedy (p : char -> bool) (k : str -> option mstate) (s : str)
  : option mstate :=
  match s with
  | [] => k []
  | c :: s' =>
      if p c
      then match greedy p k s' with
           | Some m => Some m
           | None => k s
           end
      else k s
  end.

(** Matching of a pattern at the start of [s]. *)
Fixpoint run (r : regex) (st : mstate) (s : str) : option mstate :=
  match r with
  | [] => Some st
  | Ch p :: r' =>
      match s with
      | c :: s' => if p c then run r' st s' else None
      | [] => None
      end
  | Many p :: r' => greedy p (run r' st) s
  | Many1 p :: r' =>
      match s with
      | c :: s' => if p c then greedy p (run r' st) s' else None
      | [] => None
      end
  | GOpen :: r' => run r' (MState (Some s) (group1 st)) s
  | GClose :: r' =>
      let g := match mark st with
               | Some m => Some (firstn (length m - length s) m)
               | None => None
               end in
      run r' (MState (mark st) g) s
  end.

(** [re.search(r, s)]: the match at the leftmost position that has one. *)
Fixpoint search (r : regex) (s : str) : option mstate :=
  match run r mstate0 s with
  | Some m => Some m
  | None =>
      match s with
      | [] => None
      | _ :: s' => search r s'
      end
  end.

(** [\s] on [str]: the characters for which [str.isspace] holds. *)
Definition is_space (c : char) : bool :=
  ((9 <=? c) && (c <=? 13) || (28 <=? c) && (c <=? 32) ||
   (c =? 133) || (c =? 160) || (c =? 5760) ||
   (8192 <=? c) && (c <=? 8202) || (c =? 8232) || (c =? 8233) ||
   (c =? 8239) || (c =? 8287) || (c =? 12288))%N.

(** The two quote classes of the patterns: an apostrophe or a double quote,
    and a double quote alone. *)
Definition quote2 (c : char) : bool := ceq c sq || ceq c dq.
Definition quote1 (c : char) : bool := ceq c dq.

(** A keyword, [\s*], a separator, [\s*], an opening quote, the group of one
    or more characters that are not quotes, a closing quote. *)
Definition keyed (kw : str) (sep : char) (q : char -> bool) : regex :=
  List.map (fun c => Ch (ceq c)) kw ++
  [Many is_space; Ch (ceq sep); Many is_space; Ch q;
   GOpen; Many1 (fun c => negb (q c)); GClose; Ch q].

(** ** Extractor *)

(** The pattern of [extract_server_id]: the keyword [Artifactory.server],
    [\s*], an opening parenthesis, [\s*], a quote of either kind, group 1 of
    one or more characters that are no quote of either kind, a quote of
    either kind. *)
Definition server_re : regex :=
  keyed (lit "Artifactory.server") 40%N quote2.

(** The first pattern of [extract_upload_spec]: the keyword [pattern] in
    double quotes, [\s*], a colon, [\s*], a double quote, group 1 of one or
    more characters that are no double quote, a double quote. *)
Definition pattern_re : regex :=
  keyed ([dq] ++ lit "pattern" ++ [dq]) 58%N quote1.

(** The second pattern: the same with the keyword [target]. *)
Definition target_re : regex :=
  keyed ([dq] ++ lit "target" ++ [dq]) 58%N quote1.

(** The value of [match.group(1) if match else default].  [None] stands for
    Python's [None], which [group] returns for a group that took no part in
    the match. *)
Definition group1_or (default : str) (m : option mstate) : option str :=
  match m with
  | Some m => group1 m
  | None => Some default
  end.

Definition extract_server_id (content : str) : option str :=
  group1_or (lit "ecosysjfrog") (search server_re content).

Definition extract_upload_spec (content : str) : option str * option str :=
  let pattern_match := search pattern_re content in
  let target_match := search target_re content in
  let pattern := group1_or (lit "*.txt") pattern_match in
  let target := group1_or (lit "repo/") target_match in
  (pattern, target).

(** ** Synthesizer *)

(** The text between two triple quotes of the source, one line of the source
    per element. *)
Definition text (lines : list str) : str := join [nl] lines.

Definition configure_stage (server_id server_url server_user : str) : str :=
  text [
    lit "        stage('Configure JFrog Server') {";
    lit "            steps {";
    lit "                script {";
    lit "                    echo '=== Configuring JFrog Server ==='";
    lit "                    jf 'config add " ++ server_id ++ lit " --url=" ++
      server_url ++ lit " --user=" ++ server_user ++
      lit " --password=YOUR_PASSWORD --interactive=false'";
    lit "                    jf 'c use " ++ server_id ++ lit "'";
    lit "                    echo '" ++ [check_mark] ++ lit " Server configured'";
    lit "                }";
    lit "            }";
    lit "        }"
  ].

Definition ping_stage : str :=
  text [
    lit "        ";
    lit "        stage('Ping Artifactory') {";
    lit "            steps {";
    lit "                script {";
    lit "                    echo '=== Testing Artifactory Connection ==='";
    lit "                    jf 'rt ping'";
    lit "                    echo '" ++ [check_mark] ++
      lit " Successfully connected to Artifactory!'";
    lit "                }";
    lit "            }";
    lit "        }"
  ].

Definition upload_stage (upload_pattern upload_target : str) : str :=
  text [
    lit "        ";
    lit "        stage('Upload Artifact') {";
    lit "            steps {";
    lit "                script {";
    lit "                    echo '=== Creating and Uploading Artifact ==='";
    lit "                    ";
    lit "                    // Create test file";
    lit "                    sh 'echo " ++ [dq] ++
      lit "Build ${BUILD_NUMBER} - $(date)" ++ [dq] ++
      lit " > artifactory-test-${BUILD_NUMBER}.txt'";
    lit "                    ";
    lit "                    // Upload (converted from Artifactory plugin spec)";
    lit "                    jf 'rt u " ++ upload_pattern ++ lit " " ++
      upload_target ++ lit "'";
    lit "                    ";
    lit "                    echo '" ++ [check_mark] ++
      lit " Successfully uploaded artifact!'";
    lit "                    echo " ++ [dq] ++ lit "Uploaded to: " ++
      upload_target ++ [dq];
    lit "                }";
    lit "            }";
    lit "        }"
  ].

Definition publish_stage : str :=
  text [
    lit "        ";
    lit "        stage('Publish Build Info') {";
    lit "            steps {";
    lit "                script {";
    lit "                    echo '=== Publishing Build Info ==='";
    lit "                    jf 'rt bp'";
    lit "                    echo '" ++ [check_mark] ++ lit " Build info published!'";
    lit "                }";
    lit "            }";
    lit "        }"
  ].

Definition header (server_id : str) : str :=
  text [
    lit "// MIGRATED FROM ARTIFACTORY PLUGIN TO JFROG PLUGIN";
    lit "// Original server ID: " ++ server_id;
    lit "// ";
    lit "// Conversion applied:";
    lit "// - Removed stage: Setup Artifactory";
    lit "// - Artifactory.server() " ++ [right_arrow] ++
      lit " jf 'config add' + 'c use'";
    lit "// - server.upload(spec) " ++ [right_arrow] ++
      lit " jf 'rt u pattern target'";
    lit "// - server.publishBuildInfo() " ++ [right_arrow] ++ lit " jf 'rt bp'";
    lit "// - BuildInfo objects " ++ [right_arrow] ++ lit " Removed (auto-managed)";
    lit "//";
    lit "// TODO: Replace YOUR_PASSWORD on line 24 with actual password";
    lit "";
    lit "pipeline {";
    lit "    agent any";
    lit "    ";
    lit "    tools {";
    lit "        jfrog 'jfrog-cli'";
    lit "    }";
    lit "    ";
    lit "    stages {";
    lit ""
  ].

Definition footer : str :=
  text [
    lit "";
    lit "    }";
    lit "    ";
    lit "    post {";
    lit "        success {";
    lit "            echo '" ++ [party_popper] ++
      lit " Pipeline completed successfully!'";
    lit "        }";
    lit "        failure {";
    lit "            echo '" ++ [cross_mark] ++ lit " Pipeline failed'";
    lit "        }";
    lit "    }";
    lit "}";
    lit ""
  ].

(** An f-string field: a string prints as itself, [None] and the booleans by
    their names. *)
Definition fmt (v : option str) : str :=
  match v with
  | Some s => s
  | None => lit "None"
  end.

Definition fmt_bool (b : bool) : str :=
  if b then lit "True" else lit "False".

(** The error monad of the conversion: [None] is a raised exception.  The
    only operation of [convert_pipeline] that can raise is the concatenation
    of a string with [None]; [v <- e ;; k] reads the string of [e] where the
    source first concatenates it. *)
Definition bind {A B : Type} (e : option A) (k : A -> option B) : option B :=
  match e with
  | Some a => k a
  | None => None
  end.

Notation "x <- e ;; k" := (bind e (fun x => k))
  (at level 61, e at next level, right associativity).

(** The list [stages] of [convert_pipeline], from the extracted values and
    the presence flags. *)
Definition build_stages (server_id upload_pattern upload_target : option str)
    (has_ping has_upload has_publish : bool)
    (server_url server_user : str) : option (list str) :=
  let stages := [] in
  sid <- server_id ;;
  let stages := stages ++ [configure_stage sid server_url server_user] in
  let stages := if has_ping then stages ++ [ping_stage] else stages in
  stages <- (if has_upload
             then pat <- upload_pattern ;;
                  tgt <- upload_target ;;
                  Some (stages ++ [upload_stage pat tgt])
             else Some stages) ;;
  let stages := if has_publish then stages ++ [publish_stage] else stages in
  Some stages.

Definition default_server_url : str := lit "https://ecosysjfrog.jfrog.io".
Definition default_server_user : str := lit "agrasth".

(** [convert_pipeline]: the lines it prints, and the text it returns (or
    [None] if it raises). *)
Definition convert_pipeline (content server_url server_user : str)
  : list str * option str :=
  let server_id := extract_server_id content in
  let '(upload_pattern, upload_target) := extract_upload_spec content in
  let out1 := [lit "  Server ID: " ++ fmt server_id;
               lit "  Upload pattern: " ++ fmt upload_pattern;
               lit "  Upload target: " ++ fmt upload_target] in
  let has_setup := contains (lit "stage('Setup Artifactory')") content in
  let has_ping := contains (lit "stage('Ping Artifactory')") content in
  let has_upload := contains (lit "server.upload") content in
  let has_publish := contains (lit "publishBuildInfo") content in
  let out2 := [lit "  Stages detected: Setup=" ++ fmt_bool has_setup ++
               lit ", Ping=" ++ fmt_bool has_ping ++
               lit ", Upload=" ++ fmt_bool has_upload ++
               lit ", Publish=" ++ fmt_bool has_publish] in
  (out1 ++ out2,
   stages <- build_stages server_id upload_pattern upload_target
               has_ping has_upload has_publish server_url server_user ;;
   sid <- server_id ;;
   Some (header sid ++ join [nl] stages ++ footer)).

(** The text returned by [convert_pipeline]. *)
Definition converted (content server_url server_user : str) : option str :=
  snd (convert_pipeline content server_url server_user).

(** The core of [main]: decode, then convert with the default arguments. *)
Definition migrate (content : str) : option str :=
  converted (decode_html_entities content)
    default_server_url default_server_user.

(** ** The command line

    [main] reads [sys.argv] and the file system and prints.  The file system
    is a parameter: what [Path(p).exists()] and [Path(p).read_text()] return
    and whether [Path(p).write_text(s)] returns are functions of the world,
    as is the text [str(Path(p))] that an f-string shows for a path; [None]
    and [false] stand for a raised exception.  The result of a run is what
    was printed, the calls of [write_text] that were made, and how the run
    ended. *)

Record world : Type := World {
  path_str : str -> str;
  path_exists : str -> bool;
  read_text : str -> option str;
  write_ok : str -> str -> bool
}.

Inductive status : Type :=
| Returned                    (* [main] returned: exit status 0 *)
| Exited (code : nat)         (* [sys.exit(code)] *)
| Raised.                     (* an exception left [main] *)

Record result : Type := Result {
  stdout : list str;
  writes : list (str * str);
  outcome : status
}.

(** The docstring of the module, [__doc__]. *)
Definition module_doc : str :=
  text [
    lit "";
    lit "Jenkins Artifactory Plugin to JFrog Plugin Migration Tool";
    lit "";
    lit "Converts Jenkinsfiles from Artifactory Plugin to JFrog Plugin.";
    lit "";
    lit "Usage:";
    lit "    python3 migrate_artifactory_to_jfrog.py <input-jenkinsfile> <output-jenkinsfile>";
    lit "    ";
    lit "Example:";
    lit "    python3 migrate_artifactory_to_jfrog.py Jenkinsfile.old Jenkinsfile.migrated";
    lit ""
  ].

Definition tick : char := 10003%N.   (* U+2713 *)

Definition main (argv : list str) (w : world) : result :=
  if length argv <? 3 then
    Result
      [module_doc;
       [nl] ++ lit "Error: Please provide both input and output filenames";
       [nl] ++ lit "Example:";
       lit "  python3 migrate_artifactory_to_jfrog.py Jenkinsfile.old Jenkinsfile.migrated"]
      [] (Exited 1)
  else
    let input_file := nth 1 argv [] in
    let output_file := nth 2 argv [] in
    if negb (path_exists w input_file) then
      Result [lit "Error: Input file not found: " ++ path_str w input_file]
        [] (Exited 1)
    else
      let out := [lit "Reading: " ++ path_str w input_file] in
      match read_text w input_file with
      | None => Result out [] Raised
      | Some content =>
          let content := decode_html_entities content in
          let out := out ++ [[tick] ++ lit " Decoded HTML entities";
                             [nl] ++ lit "Converting pipeline..."] in
          let '(printed, converted) :=
            convert_pipeline content default_server_url default_server_user in
          let out := out ++ printed in
          match converted with
          | None => Result out [] Raised
          | Some converted =>
              if write_ok w output_file converted then
                Result
                  (out ++
                   [[tick] ++ lit " Converted pipeline written to: " ++
                      path_str w output_file;
                    [nl] ++ repeat 61%N 50;
                    [check_mark] ++ lit " MIGRATION COMPLETE!";
                    repeat 61%N 50;
                    [nl] ++ lit "Next steps:";
                    lit "1. Review " ++ path_str w output_file;
                    lit "2. Replace YOUR_PASSWORD on line 24";
                    lit "3. Create Jenkins job with this script";
                    lit "4. Test it!"])
                  [(output_file, converted)] Returned
              else Result out [(output_file, converted)] Raised
          end
      end.

(** * Vocabulary of the properties *)

(** [p] occurs in [s]. *)
Definition occurs (p s : str) : Prop := exists l r, s = l ++ p ++ r.

(** [avoids d p]: the character [d] is not in [p]. *)
Definition avoids (d : char) (p : str) : bool := negb (existsb (ceq d) p).

(** The character references that [decode_html_entities] replaces, and the
    texts that decode to one of them. *)
Definition references : list str :=
  [lit "&apos;"; lit "&quot;"; lit "&gt;"; lit "&lt;"; lit "&amp;"].

Definition double_encoded : list str :=
  [lit "&amp;apos;"; lit "&amp;quot;"; lit "&amp;gt;"; lit "&amp;lt;";
   lit "&amp;amp;"].

(** The first four replacements of [decode_html_entities]. *)
Definition decode_quotes_and_angles (content : str) : str :=
  let content := replace (lit "&apos;") [sq] content in
  let content := replace (lit "&quot;") [dq] content in
  let content := replace (lit "&gt;") (lit ">") content in
  let content := replace (lit "&lt;") (lit "<") content in
  content.

(** The next character, if any, is not in the class [p]. *)
Definition stops (p : char -> bool) (s : str) : bool :=
  match s with
  | [] => true
  | c :: _ => negb (p c)
  end.

(** [s] begins with a fragment whose argument is [arg]. *)
Definition fragment (kw : str) (sep : char) (q : char -> bool)
    (arg s : str) : Prop :=
  exists ws1 ws2 q1 q2 rest,
    s = kw ++ ws1 ++ sep :: ws2 ++ q1 :: arg ++ q2 :: rest /\
    forallb is_space ws1 = true /\ forallb is_space ws2 = true /\
    q q1 = true /\ q q2 = true /\
    arg <> [] /\ forallb (fun c => negb (q c)) arg = true.

(** A fragment begins somewhere in [s]. *)
Definition has_fragment (kw : str) (sep : char) (q : char -> bool)
    (s : str) : Prop :=
  exists l1 l2 arg, s = l1 ++ l2 /\ fragment kw sep q arg l2.

(** The leftmost fragment of [s] has the argument [arg]. *)
Definition first_fragment (kw : str) (sep : char) (q : char -> bool)
    (arg s : str) : Prop :=
  exists pre l2,
    s = pre ++ l2 /\ fragment kw sep q arg l2 /\
    forall l1' l2' arg', s = l1' ++ l2' -> length l1' < length pre ->
      ~ fragment kw sep q arg' l2'.

(** The keywords of the three patterns, and the fragments that the pattern
    of [extract_server_id] describes. *)
Definition server_kw : str := lit "Artifactory.server".
Definition pattern_kw : str := [dq] ++ lit "pattern" ++ [dq].
Definition target_kw : str := [dq] ++ lit "target" ++ [dq].

Definition server_fragment : str -> str -> Prop :=
  fragment server_kw 40%N quote2.

(** The positions of [s], counted from [i], at which [kw] begins. *)
Fixpoint keyword_positions (kw s : str) (i : nat) : list nat :=
  (if prefixb kw s then [i] else []) ++
  match s with
  | [] => []
  | _ :: s' => keyword_positions kw s' (S i)
  end.

(** The markers of the four presence flags. *)
Definition setup_marker : str := lit "stage('Setup Artifactory')".
Definition ping_marker : str := lit "stage('Ping Artifactory')".
Definition upload_marker : str := lit "server.upload".
Definition publish_marker : str := lit "publishBuildInfo".

(** The list [stages] that [convert_pipeline] builds for [content]. *)
Definition stages_of (content server_url server_user : str)
  : option (list str) :=
  build_stages (extract_server_id content)
    (fst (extract_upload_spec content)) (snd (extract_upload_spec content))
    (contains ping_marker content) (contains upload_marker content)
    (contains publish_marker content) server_url server_user.

(** The name that a stage block declares: after leading white space, the
    block reads [stage('NAME') {]. *)
Fixpoint lstrip (s : str) : str :=
  match s with
  | [] => []
  | c :: s' => if is_space c then lstrip s' else s
  end.

Fixpoint take_until (p : char -> bool) (s : str) : str :=
  match s with
  | [] => []
  | c :: s' => if p c then [] else c :: take_until p s'
  end.

Definition stage_name (block : str) : option str :=
  let s := lstrip block in
  if prefixb (lit "stage('") s then
    let rest := skipn 7 s in
    let name := take_until (ceq sq) rest in
    if prefixb (lit "') {") (skipn (length name) rest)
    then Some name else None
  else None.

Definition stage_names (stages : list str) : list (option str) :=
  List.map stage_name stages.

Definition configure_name : str := lit "Configure JFrog Server".
Definition ping_name : str := lit "Ping Artifactory".
Definition upload_name : str := lit "Upload Artifact".
Definition publish_name : str := lit "Publish Build Info".

(** The command line of the Configure stage, with the placeholder in the
    place of the password. *)
Definition config_add_command (sid url user : str) : str :=
  lit "jf 'config add " ++ sid ++ lit " --url=" ++ url ++ lit " --user=" ++
  user ++ lit " --password=YOUR_PASSWORD --interactive=false'".

(** The fragments named by the scenario, as they are written in a
    pipeline. *)
Definition myserver_call : str := lit "Artifactory.server('myserver')".
Definition zip_field : str :=
  pattern_kw ++ lit ": " ++ [dq] ++ lit "*.zip" ++ [dq].
Definition libs_field : str :=
  target_kw ++ lit ": " ++ [dq] ++ lit "libs-release/" ++ [dq].

(** A pipeline with the fragments of the scenario. *)
Definition scenario_pipeline : str :=
  text [
    lit "node {";
    lit "  def server = " ++ myserver_call;
    lit "  def spec = '{ " ++ zip_field ++ lit ", " ++ libs_field ++ lit " }'";
    lit "  server.upload(spec)";
    lit "  server.publishBuildInfo(buildInfo)";
    lit "}"
  ].

(** The same pipeline after the declaration of another server. *)
Definition two_servers_pipeline : str :=
  lit "def old = Artifactory.server('legacy')" ++ [nl] ++ scenario_pipeline.

(** The escaping that the normalizer undoes: the five characters that an
    XML export writes as character references, with their references. *)
Definition entity_table : list (char * str) :=
  [(38%N, lit "&amp;"); (60%N, lit "&lt;"); (62%N, lit "&gt;");
   (34%N, lit "&quot;"); (39%N, lit "&apos;")].

Fixpoint entity_of (tbl : list (char * str)) (c : char) : option str :=
  match tbl with
  | [] => None
  | (k, e) :: tbl' => if ceq c k then Some e else entity_of tbl' c
  end.

Definition escape_with (tbl : list (char * str)) (c : char) : str :=
  match entity_of tbl c with
  | Some e => e
  | None => [c]
  end.

Definition xml_escape (t : str) : str := flat_map (escape_with entity_table) t.

(** [s.split(d)] for a single character [d]: the lines of a text. *)
Fixpoint split_on (d : char) (s : str) : list str :=
  match s with
  | [] => [[]]
  | c :: s' =>
      if ceq c d then [] :: split_on d s'
      else match split_on d s' with
           | [] => [[c]]
           | l :: ls => (c :: l) :: ls
           end
  end.

(** The lines of the Configure stage that echo and that run [config add]. *)
Definition configure_echo_line : str :=
  lit "                    echo '=== Configuring JFrog Server ==='".

Definition configure_command_line (sid url user : str) : str :=
  lit "                    " ++ config_add_command sid url user.

(** A world with one file. *)
Definition one_file_world (path content : str) : world :=
  World (fun p => p)
        (fun p => if list_eq_dec N.eq_dec p path then true else false)
        (fun p => if list_eq_dec N.eq_dec p path then Some content else None)
        (fun _ _ => true).

(** The first 25 lines of every document, given the Configure stage. *)
Definition first_lines (sid url user : str) : list str :=
  [ lit "// MIGRATED FROM ARTIFACTORY PLUGIN TO JFROG PLUGIN";
    lit "// Original server ID: " ++ sid;
    lit "// ";
    lit "// Conversion applied:";
    lit "// - Removed stage: Setup Artifactory";
    lit "// - Artifactory.server() " ++ [right_arrow] ++
      lit " jf 'config add' + 'c use'";
    lit "// - server.upload(spec) " ++ [right_arrow] ++
      lit " jf 'rt u pattern target'";
    lit "// - server.publishBuildInfo() " ++ [right_arrow] ++ lit " jf 'rt bp'";
    lit "// - BuildInfo objects " ++ [right_arrow] ++ lit " Removed (auto-managed)";
    lit "//";
    lit "// TODO: Replace YOUR_PASSWORD on line 24 with actual password";
    lit "";
    lit "pipeline {";
    lit "    agent any";
    lit "    ";
    lit "    tools {";
    lit "        jfrog 'jfrog-cli'";
    lit "    }";
    lit "    ";
    lit "    stages {";
    lit "        stage('Configure JFrog Server') {";
    lit "            steps {";
    lit "                script {";
    configure_echo_line;
    configure_command_line sid url user ].

(** * Properties *)

(** ** Prefixes and occurrences *)

Lemma ceq_true (a b : char) : ceq a b = true <-> a = b.
Proof. unfold ceq. apply N.eqb_eq. Qed.

Lemma ceq_refl (a : char) : ceq a a = true.
Proof. apply ceq_true. reflexivity. Qed.

Lemma prefixb_app (p r : str) : prefixb p (p ++ r) = true.
Proof.
  induction p as [|a p IH]; simpl; [reflexivity|].
  rewrite ceq_refl. exact IH.
Qed.

Lemma prefixb_split (p s : str) :
  prefixb p s = true -> exists r, s = p ++ r.
Proof.
  revert s. induction p as [|a p IH]; intros s H.
  - exists s. reflexivity.
  - destruct s as [|b s]; simpl in H; [discriminate|].
    apply andb_true_iff in H. destruct H as [Hab Hp].
    apply ceq_true in Hab. subst b.
    destruct (IH _ Hp) as [r ->]. exists r. reflexivity.
Qed.

Lemma contains_cons (p : str) (c : char) (s : str) :
  contains p (c :: s) = prefixb p (c :: s) || contains p s.
Proof. reflexivity. Qed.

Lemma contains_occurs (p s : str) : contains p s = true <-> occurs p s.
Proof.
  split.
  - induction s as [|c s IH]; intros H.
    + simpl in H. rewrite orb_false_r in H.
      apply prefixb_split in H. destruct H as [r Hr].
      exists [], r. exact Hr.
    + rewrite contains_cons in H. apply orb_true_iff in H.
      destruct H as [H|H].
      * apply prefixb_split in H. destruct H as [r Hr].
        exists [], r. exact Hr.
      * destruct (IH H) as (l & r & ->). exists (c :: l), r. reflexivity.
  - intros (l & r & ->). induction l as [|c l IH].
    + simpl. destruct (p ++ r) eqn:E.
      * simpl. rewrite <- E, prefixb_app. reflexivity.
      * rewrite contains_cons, <- E, prefixb_app. reflexivity.
    + simpl app. rewrite contains_cons, IH. apply orb_true_r.
Qed.

Lemma contains_nil (s : str) : contains [] s = true.
Proof. destruct s; reflexivity. Qed.

Lemma contains_prefix (p s : str) :
  prefixb p s = true -> contains p s = true.
Proof. intros H. destruct s; simpl; rewrite H; reflexivity. Qed.

Lemma contains_app_r (p l s : str) :
  contains p s = true -> contains p (l ++ s) = true.
Proof.
  intros H. apply contains_occurs in H. apply contains_occurs.
  destruct H as (a & b & ->). exists (l ++ a), b.
  rewrite <- app_assoc. reflexivity.
Qed.

Lemma contains_false_prefix (p s : str) :
  contains p s = false -> prefixb p s = false.
Proof.
  intros H. destruct (prefixb p s) eqn:E; [|reflexivity].
  apply contains_prefix in E. congruence.
Qed.

Lemma contains_false_tail (p : str) (c : char) (s : str) :
  contains p (c :: s) = false -> contains p s = false.
Proof.
  rewrite contains_cons. intros H. apply orb_false_iff in H. apply H.
Qed.

(** ** [str.replace] *)

Section Replace.

Variables (o : char) (ot new : str).

Local Abbreviation old := (o :: ot).
Local Abbreviation R := (replace_from (o :: ot) new 0).

Lemma replace_from_skip (k : nat) (s : str) :
  replace_from old new k s = R (skipn k s).
Proof.
  revert k. induction s as [|c s IH]; intros k.
  - destruct k; reflexivity.
  - destruct k as [|k]; [reflexivity|]. simpl. apply IH.
Qed.

(** An occurrence at the head is replaced and scanning resumes after it. *)
Lemma replace_hit (rest : str) : R (old ++ rest) = new ++ R rest.
Proof.
  simpl app. cbn [replace_from].
  replace (prefixb old (o :: ot ++ rest)) with true
    by (symmetry; apply (prefixb_app old rest)).
  rewrite replace_from_skip. f_equal. f_equal.
  simpl length. replace (S (length ot) - 1) with (length ot) by lia.
  rewrite skipn_app, skipn_all, Nat.sub_diag. reflexivity.
Qed.

(** Elsewhere the head is kept. *)
Lemma replace_miss (c : char) (s : str) :
  prefixb old (c :: s) = false -> R (c :: s) = c :: R s.
Proof. intros H. cbn [replace_from]. rewrite H. reflexivity. Qed.

(** Induction along the scan of [replace]. *)
Lemma scan_ind (P : str -> Prop) :
  P [] ->
  (forall rest, P rest -> P (old ++ rest)) ->
  (forall c s, prefixb old (c :: s) = false -> P s -> P (c :: s)) ->
  forall s, P s.
Proof.
  intros Hnil Hhit Hmiss s.
  assert (H : forall n s, length s <= n -> P s).
  { clear s. induction n as [|n IH]; intros s Hn.
    - destruct s; [exact Hnil | simpl in Hn; lia].
    - destruct s as [|c s]; [exact Hnil|].
      destruct (prefixb old (c :: s)) eqn:E.
      + apply prefixb_split in E. destruct E as [rest E]. rewrite E.
        apply Hhit. apply IH.
        apply (f_equal (@length char)) in E.
        rewrite length_app in E. simpl in E, Hn. lia.
      + apply Hmiss; [exact E|]. apply IH. simpl in Hn. lia. }
  apply (H (length s)). lia.
Qed.

(** Text without an occurrence of [old] is unchanged. *)
Lemma replace_absent (s : str) : contains old s = false -> R s = s.
Proof.
  induction s as [|c s IH]; intros H; [reflexivity|].
  rewrite replace_miss by (apply contains_false_prefix; exact H).
  f_equal. apply IH. apply contains_false_tail with c. exact H.
Qed.

End Replace.

Lemma avoids_cons (d a : char) (p : str) :
  avoids d (a :: p) = true -> ceq a d = false /\ avoids d p = true.
Proof.
  unfold avoids. simpl. rewrite negb_orb. intros H.
  apply andb_true_iff in H. destruct H as [H1 H2]. split; [|exact H2].
  apply negb_true_iff in H1. unfold ceq in *. rewrite N.eqb_sym. exact H1.
Qed.

(** Replacing every occurrence of [old] by a single character [d]. *)
Section ReplaceByChar.

Variables (o : char) (ot : str) (d : char).

Local Abbreviation old := (o :: ot).
Local Abbreviation R := (replace_from (o :: ot) [d] 0).

(** A prefix of the result without [d] is a prefix of the input. *)
Lemma replace_prefix (s : str) :
  forall q, avoids d q = true ->
    prefixb q (R s) = true -> prefixb q s = true.
Proof.
  pattern s. apply (@scan_ind o ot); clear s.
  - intros q _ H. exact H.
  - intros rest _ q Hq H.
    rewrite replace_hit in H. destruct q as [|a q]; [reflexivity|].
    apply avoids_cons in Hq. simpl in H. destruct Hq as [Hq _].
    rewrite Hq in H. discriminate.
  - intros c s Hm IH q Hq H. rewrite replace_miss in H by exact Hm.
    destruct q as [|a q]; [reflexivity|].
    simpl in H |- *. apply andb_true_iff in H. destruct H as [H1 H2].
    rewrite H1. simpl. apply IH; [|exact H2].
    apply avoids_cons in Hq. apply Hq.
Qed.

(** An occurrence in the result of a text without [d] was in the input. *)
Lemma replace_keeps (p s : str) :
  avoids d p = true -> contains p (R s) = true -> contains p s = true.
Proof.
  intros Hp. pattern s. apply (@scan_ind o ot); clear s.
  - intros H. exact H.
  - intros rest IH H. rewrite replace_hit in H.
    simpl app in H. rewrite contains_cons in H. apply orb_true_iff in H.
    destruct H as [H|H].
    + destruct p as [|a p]; [apply contains_nil|].
      apply avoids_cons in Hp. simpl in H. destruct Hp as [Hp _].
      rewrite Hp in H. discriminate.
    + apply (contains_app_r p old). apply IH. exact H.
  - intros c s Hm IH H. rewrite contains_cons.
    rewrite replace_miss in H by exact Hm.
    rewrite contains_cons in H. apply orb_true_iff in H.
    destruct H as [H|H].
    + rewrite <- (@replace_miss _ _ [d] _ _ Hm) in H.
      apply replace_prefix in H; [|exact Hp]. rewrite H. reflexivity.
    + rewrite (IH H). apply orb_true_r.
Qed.

Lemma replace_keeps_absent (p s : str) :
  avoids d p = true -> contains p s = false -> contains p (R s) = false.
Proof.
  intros Hp H. destruct (contains p (R s)) eqn:E; [|reflexivity].
  apply replace_keeps in E; [congruence | exact Hp].
Qed.

(** No occurrence of [old] is left, when [d] is not in [old]. *)
Lemma replace_removes (s : str) :
  avoids d old = true -> contains old (R s) = false.
Proof.
  intros Ho. pattern s. apply (@scan_ind o ot); clear s.
  - reflexivity.
  - intros rest IH. rewrite replace_hit.
    simpl app. rewrite contains_cons. rewrite IH, orb_false_r.
    apply avoids_cons in Ho. simpl. destruct Ho as [Ho _]. rewrite Ho.
    reflexivity.
  - intros c s Hm IH. rewrite replace_miss by exact Hm.
    rewrite contains_cons. rewrite IH, orb_false_r.
    destruct (prefixb old (c :: R s)) eqn:E; [|reflexivity].
    rewrite <- (@replace_miss _ _ [d] _ _ Hm) in E.
    apply replace_prefix in E; [|exact Ho]. congruence.
Qed.

(** An occurrence of [d :: q] in the result was in the input, or stands
    where the input had [old ++ q]. *)
Lemma replace_makes (q s : str) :
  avoids d q = true ->
  contains (d :: q) (R s) = true ->
  contains (d :: q) s = true \/ contains (old ++ q) s = true.
Proof.
  intros Hq. pattern s. apply (@scan_ind o ot); clear s.
  - intros H. discriminate H.
  - intros rest IH H. rewrite replace_hit in H.
    simpl app in H. rewrite contains_cons in H. apply orb_true_iff in H.
    destruct H as [H|H].
    + right. simpl in H. apply andb_true_iff in H. destruct H as [_ H].
      apply replace_prefix in H; [|exact Hq].
      apply prefixb_split in H. destruct H as [r ->].
      apply contains_prefix. rewrite app_assoc. apply prefixb_app.
    + destruct (IH H) as [H'|H']; [left|right];
        apply (contains_app_r _ old); exact H'.
  - intros c s Hm IH H. rewrite replace_miss in H by exact Hm.
    rewrite contains_cons in H. apply orb_true_iff in H.
    destruct H as [H|H].
    + left. apply contains_prefix. simpl in H |- *.
      apply andb_true_iff in H. destruct H as [H1 H2]. rewrite H1. simpl.
      apply replace_prefix; assumption.
    + destruct (IH H) as [H'|H']; [left|right];
        rewrite contains_cons, H'; apply orb_true_r.
Qed.

(** When [old] is [d :: ot] itself, an occurrence of [old] in the result
    stands where the input had [old ++ ot]. *)
Lemma replace_remakes (s : str) :
  o = d -> avoids d ot = true ->
  contains old (R s) = true -> contains (old ++ ot) s = true.
Proof.
  intros Hod Hq. pattern s. apply (@scan_ind o ot); clear s.
  - intros H. discriminate H.
  - intros rest IH H. rewrite replace_hit in H.
    simpl app in H. rewrite contains_cons in H. apply orb_true_iff in H.
    destruct H as [H|H].
    + simpl in H. apply andb_true_iff in H.
      destruct H as [_ H]. apply replace_prefix in H; [|exact Hq].
      apply prefixb_split in H. destruct H as [r ->].
      apply contains_prefix. rewrite app_assoc. apply prefixb_app.
    + apply (contains_app_r _ old). apply IH. exact H.
  - intros c s Hm IH H. rewrite replace_miss in H by exact Hm.
    rewrite contains_cons in H. apply orb_true_iff in H.
    destruct H as [H|H].
    + exfalso. simpl in H, Hm.
      apply andb_true_iff in H. destruct H as [H1 H2].
      apply replace_prefix in H2; [|exact Hq].
      rewrite H1, H2 in Hm. discriminate.
    + rewrite contains_cons, (IH H). apply orb_true_r.
Qed.

End ReplaceByChar.

(** ** Normalizer *)

Lemma decode_last_step (t : str) :
  decode_html_entities t =
  replace (lit "&amp;") (lit "&") (decode_quotes_and_angles t).
Proof. reflexivity. Qed.

Lemma decode_quotes_and_angles_keeps (p t : str) :
  avoids sq p = true -> avoids dq p = true ->
  avoids 62%N p = true -> avoids 60%N p = true ->
  contains p t = false ->
  contains p (decode_quotes_and_angles t) = false.
Proof.
  intros H1 H2 H3 H4 H. unfold decode_quotes_and_angles.
  apply (@replace_keeps_absent 38%N (lit "lt;") 60%N p _ H4).
  apply (@replace_keeps_absent 38%N (lit "gt;") 62%N p _ H3).
  apply (@replace_keeps_absent 38%N (lit "quot;") dq p _ H2).
  apply (@replace_keeps_absent 38%N (lit "apos;") sq p _ H1).
  exact H.
Qed.

(** After the first four replacements none of their four references is
    left. *)
Lemma decode_quotes_and_angles_clean (t : str) :
  let u := decode_quotes_and_angles t in
  contains (lit "&apos;") u = false /\ contains (lit "&quot;") u = false /\
  contains (lit "&gt;") u = false /\ contains (lit "&lt;") u = false.
Proof.
  unfold decode_quotes_and_angles. repeat split.
  - apply (@replace_keeps_absent 38%N (lit "lt;") 60%N); [reflexivity|].
    apply (@replace_keeps_absent 38%N (lit "gt;") 62%N); [reflexivity|].
    apply (@replace_keeps_absent 38%N (lit "quot;") dq); [reflexivity|].
    apply (@replace_removes 38%N (lit "apos;") sq). reflexivity.
  - apply (@replace_keeps_absent 38%N (lit "lt;") 60%N); [reflexivity|].
    apply (@replace_keeps_absent 38%N (lit "gt;") 62%N); [reflexivity|].
    apply (@replace_removes 38%N (lit "quot;") dq). reflexivity.
  - apply (@replace_keeps_absent 38%N (lit "lt;") 60%N); [reflexivity|].
    apply (@replace_removes 38%N (lit "gt;") 62%N). reflexivity.
  - apply (@replace_removes 38%N (lit "lt;") 60%N). reflexivity.
Qed.

(** Text without any of the five references is left as it is. *)
Lemma decode_fixed (v : str) :
  (forall e, In e references -> contains e v = false) ->
  decode_html_entities v = v.
Proof.
  intros H. unfold decode_html_entities.
  assert (H1 : replace (lit "&apos;") [sq] v = v).
  { apply (@replace_absent 38%N (lit "apos;")). apply H. simpl. tauto. }
  rewrite H1.
  assert (H2 : replace (lit "&quot;") [dq] v = v).
  { apply (@replace_absent 38%N (lit "quot;")). apply H. simpl. tauto. }
  rewrite H2.
  assert (H3 : replace (lit "&gt;") (lit ">") v = v).
  { apply (@replace_absent 38%N (lit "gt;")). apply H. simpl. tauto. }
  rewrite H3.
  assert (H4 : replace (lit "&lt;") (lit "<") v = v).
  { apply (@replace_absent 38%N (lit "lt;")). apply H. simpl. tauto. }
  rewrite H4.
  apply (@replace_absent 38%N (lit "amp;")). apply H. simpl. tauto.
Qed.

(** The last replacement makes a reference only where the text had it
    behind [&amp;]. *)
Lemma decode_amp_makes (q u : str) :
  avoids 38%N q = true ->
  contains (38%N :: q) u = false ->
  contains (lit "&amp;" ++ q) u = false ->
  contains (38%N :: q) (replace (lit "&amp;") (lit "&") u) = false.
Proof.
  intros Hq H1 H2.
  destruct (contains (38%N :: q) (replace (lit "&amp;") (lit "&") u)) eqn:E;
    [|reflexivity].
  apply (@replace_makes 38%N (lit "amp;") 38%N q u Hq) in E.
  exfalso. destruct E as [E|E].
  - exact (eq_true_false_abs _ E H1).
  - exact (eq_true_false_abs _ E H2).
Qed.

(** The output of the normalizer, for a text without a double-encoded
    reference, has none of the five references. *)
Lemma decode_clean (t : str) :
  (forall e, In e double_encoded -> contains e t = false) ->
  forall e, In e references -> contains e (decode_html_entities t) = false.
Proof.
  intros H. rewrite decode_last_step.
  pose proof (decode_quotes_and_angles_clean t) as C. cbv zeta in C.
  destruct C as (C1 & C2 & C3 & C4).
  assert (D : forall e, In e double_encoded ->
                contains e (decode_quotes_and_angles t) = false).
  { intros e He. pose proof (H e He) as Ht.
    simpl in He. destruct He as [<-|[<-|[<-|[<-|[<-|[]]]]]];
      apply decode_quotes_and_angles_keeps; try reflexivity; exact Ht. }
  intros e He. simpl in He.
  destruct He as [<-|[<-|[<-|[<-|[<-|[]]]]]].
  - apply (@decode_amp_makes (lit "apos;")); [reflexivity|exact C1|].
    apply D. simpl. tauto.
  - apply (@decode_amp_makes (lit "quot;")); [reflexivity|exact C2|].
    apply D. simpl. tauto.
  - apply (@decode_amp_makes (lit "gt;")); [reflexivity|exact C3|].
    apply D. simpl. tauto.
  - apply (@decode_amp_makes (lit "lt;")); [reflexivity|exact C4|].
    apply D. simpl. tauto.
  - destruct (contains (lit "&amp;")
                (replace (lit "&amp;") (lit "&") (decode_quotes_and_angles t)))
      eqn:E; [|reflexivity].
    apply (@replace_remakes 38%N (lit "amp;") 38%N) in E;
      [|reflexivity|reflexivity].
    exfalso. apply (eq_true_false_abs _ E).
    apply (D (lit "&amp;amp;")). simpl. tauto.
Qed.

(** C1, as the claim states it, fails: a text with a double-encoded
    reference is decoded once more by a second run.  The normalizer turns
    [&amp;lt;] into [&lt;], and a second run turns that into [<]. *)
Lemma decode_not_idempotent :
  decode_html_entities (decode_html_entities (lit "&amp;lt;"))
  <> decode_html_entities (lit "&amp;lt;").
Proof. vm_compute. discriminate. Qed.

(** C1 (amended): for every text that contains no double-encoded reference
    (none of [&amp;apos;], [&amp;quot;], [&amp;gt;], [&amp;lt;], [&amp;amp;]),
    normalizing the normalized text is a no-op. *)
Theorem decode_idempotent_single_encoded (t : str) :
  (forall e, In e double_encoded -> contains e t = false) ->
  decode_html_entities (decode_html_entities t) = decode_html_entities t.
Proof.
  intros H. apply decode_fixed. apply decode_clean. exact H.
Qed.

Lemma decode_idempotent_single_encoded_witness :
  let t := lit "Artifactory.server(&apos;srv1&apos;) &amp;&amp; a &lt; b" in
  (forall e, In e double_encoded -> contains e t = false) /\
  decode_html_entities (decode_html_entities t) = decode_html_entities t.
Proof.
  assert (H : forall e, In e double_encoded ->
     contains e
       (lit "Artifactory.server(&apos;srv1&apos;) &amp;&amp; a &lt; b") = false).
  { intros e He. simpl in He.
    destruct He as [<-|[<-|[<-|[<-|[<-|[]]]]]]; reflexivity. }
  split; [exact H|].
  apply (decode_idempotent_single_encoded _ H).
Defined.

(** ** The matcher *)

Lemma greedy_sound (p : char -> bool) (k : str -> option mstate)
    (s : str) (m : mstate) :
  greedy p k s = Some m ->
  exists a s', s = a ++ s' /\ forallb p a = true /\ k s' = Some m.
Proof.
  induction s as [|c s IH]; simpl; intros H.
  - exists [], []. auto.
  - destruct (p c) eqn:Hc.
    + destruct (greedy p k s) as [m0|] eqn:G.
      * injection H as <-. destruct (IH eq_refl) as (a & s' & -> & Ha & Hk).
        exists (c :: a), s'. simpl. rewrite Hc, Ha. auto.
      * exists [], (c :: s). auto.
    + exists [], (c :: s). auto.
Qed.

Lemma greedy_complete (p : char -> bool) (k : str -> option mstate)
    (a s' : str) (m : mstate) :
  forallb p a = true -> stops p s' = true -> k s' = Some m ->
  greedy p k (a ++ s') = Some m.
Proof.
  intros Ha Hs Hk. induction a as [|c a IH]; simpl.
  - destruct s' as [|c s']; simpl; [exact Hk|]. simpl in Hs.
    apply negb_true_iff in Hs. rewrite Hs. exact Hk.
  - simpl in Ha. apply andb_true_iff in Ha. destruct Ha as [Hc Ha].
    rewrite Hc, (IH Ha). reflexivity.
Qed.

(** The text of a group: from where it was opened to where it is closed. *)
Lemma firstn_group (a rest : str) :
  firstn (length (a ++ rest) - length rest) (a ++ rest) = a.
Proof.
  rewrite length_app.
  replace (length a + length rest - length rest) with (length a) by lia.
  rewrite firstn_app, Nat.sub_diag, firstn_all. simpl. apply app_nil_r.
Qed.

Lemma run_keyword (kw : str) (r : regex) (st : mstate) (s : str) :
  run (List.map (fun c => Ch (ceq c)) kw ++ r) st (kw ++ s) = run r st s.
Proof.
  induction kw as [|a kw IH]; simpl; [reflexivity|].
  rewrite ceq_refl. exact IH.
Qed.

Lemma run_keyword_some (kw : str) (r : regex) (st : mstate) (s : str)
    (m : mstate) :
  run (List.map (fun c => Ch (ceq c)) kw ++ r) st s = Some m ->
  exists s', s = kw ++ s' /\ run r st s' = Some m.
Proof.
  revert s. induction kw as [|a kw IH]; simpl; intros s H.
  - exists s. auto.
  - destruct s as [|b s]; [discriminate|].
    destruct (ceq a b) eqn:E; [|discriminate].
    apply ceq_true in E. subst b.
    destruct (IH _ H) as (s' & -> & Hr). exists s'. auto.
Qed.

Lemma search_hit (r : regex) (s : str) (m : mstate) :
  run r mstate0 s = Some m -> search r s = Some m.
Proof. intros H. destruct s; simpl; rewrite H; reflexivity. Qed.

(** A match found by [search] is a match at some position of the text, and
    no earlier position has a match. *)
Lemma search_sound (r : regex) (s : str) (m : mstate) :
  search r s = Some m ->
  exists l1 l2, s = l1 ++ l2 /\ run r mstate0 l2 = Some m.
Proof.
  induction s as [|c s IH]; simpl; intros H.
  - destruct (run r mstate0 []) eqn:E; [|discriminate].
    exists [], []. split; [reflexivity|]. congruence.
  - destruct (run r mstate0 (c :: s)) eqn:E.
    + exists [], (c :: s). split; [reflexivity|]. congruence.
    + destruct (IH H) as (l1 & l2 & -> & Hr).
      exists (c :: l1), l2. auto.
Qed.

Lemma search_skip (r : regex) (pre rest : str) :
  (forall l1 l2, pre = l1 ++ l2 -> l2 <> [] ->
     run r mstate0 (l2 ++ rest) = None) ->
  search r (pre ++ rest) = search r rest.
Proof.
  induction pre as [|c pre IH]; intros H; [reflexivity|].
  simpl app. simpl search.
  assert (H0 : run r mstate0 ((c :: pre) ++ rest) = None)
    by (apply (H [] (c :: pre) eq_refl); discriminate).
  simpl app in H0. rewrite H0.
  apply IH. intros l1 l2 E Hl2. apply (H (c :: l1) l2); [|exact Hl2].
  simpl. f_equal. exact E.
Qed.

Lemma search_none (r : regex) (s : str) :
  (forall l1 l2, s = l1 ++ l2 -> run r mstate0 l2 = None) ->
  search r s = None.
Proof.
  induction s as [|c s IH]; intros H; simpl.
  - rewrite (H [] [] eq_refl). reflexivity.
  - rewrite (H [] (c :: s) eq_refl). apply IH.
    intros l1 l2 E. apply (H (c :: l1) l2). simpl. f_equal. exact E.
Qed.

(** ** Fragments

    What the patterns of the extractor describe, stated on the text: a
    keyword, white space, a separator, white space, a quote, a non-empty
    argument without quotes, a quote. *)

Section Keyed.

Variables (kw : str) (sep : char) (q : char -> bool).

Lemma fragment_keyword (arg s : str) :
  fragment kw sep q arg s -> prefixb kw s = true.
Proof.
  intros (ws1 & ws2 & q1 & q2 & rest & -> & _). apply prefixb_app.
Qed.

Lemma has_fragment_keyword (s : str) :
  has_fragment kw sep q s -> contains kw s = true.
Proof.
  intros (l1 & l2 & arg & -> & F). apply contains_app_r.
  apply contains_prefix. apply (fragment_keyword F).
Qed.

(** A match of the pattern is a fragment, and group 1 is its argument. *)
Lemma keyed_sound (st : mstate) (s : str) (m : mstate) :
  run (keyed kw sep q) st s = Some m ->
  exists arg, fragment kw sep q arg s /\ group1 m = Some arg.
Proof.
  unfold keyed. intros H.
  apply run_keyword_some in H. destruct H as (s1 & -> & H).
  cbn [run] in H.
  apply greedy_sound in H. destruct H as (ws1 & s2 & -> & Hws1 & H).
  destruct s2 as [|c2 s3]; [discriminate|].
  destruct (ceq sep c2) eqn:Hsep; [|discriminate].
  apply ceq_true in Hsep. subst c2.
  apply greedy_sound in H. destruct H as (ws2 & s4 & -> & Hws2 & H).
  destruct s4 as [|q1 s5]; [discriminate|].
  destruct (q q1) eqn:Hq1; [|discriminate].
  destruct s5 as [|c s6]; [discriminate|].
  destruct (negb (q c)) eqn:Hc; [|discriminate].
  apply greedy_sound in H. destruct H as (a & s7 & -> & Ha & H).
  cbn [mark group1] in H.
  destruct s7 as [|q2 rest]; [discriminate|].
  destruct (q q2) eqn:Hq2; [|discriminate].
  injection H as <-. exists (c :: a). split.
  - exists ws1, ws2, q1, q2, rest. repeat split; auto.
    + discriminate.
    + simpl. rewrite Hc, Ha. reflexivity.
  - cbn [group1]. f_equal.
    change (firstn (length ((c :: a) ++ q2 :: rest) - length (q2 :: rest))
              ((c :: a) ++ q2 :: rest) = c :: a).
    apply firstn_group.
Qed.

Hypothesis sep_not_space : is_space sep = false.
Hypothesis quote_not_space : forall c, q c = true -> is_space c = false.

(** A fragment is matched by the pattern, and group 1 is its argument. *)
Lemma keyed_complete (st : mstate) (arg s : str) :
  fragment kw sep q arg s ->
  exists m, run (keyed kw sep q) st s = Some m /\ group1 m = Some arg.
Proof.
  intros (ws1 & ws2 & q1 & q2 & rest & -> & Hws1 & Hws2 & Hq1 & Hq2
          & Harg & Hnq).
  destruct arg as [|c a]; [congruence|].
  simpl in Hnq. apply andb_true_iff in Hnq. destruct Hnq as [Hc Ha].
  exists (MState (Some (c :: a ++ q2 :: rest)) (Some (c :: a))).
  split; [|reflexivity].
  unfold keyed. rewrite run_keyword. cbn [run].
  apply greedy_complete; [exact Hws1 | simpl; rewrite sep_not_space; reflexivity |].
  rewrite ceq_refl.
  apply greedy_complete;
    [exact Hws2 | simpl; rewrite (quote_not_space Hq1); reflexivity |].
  rewrite Hq1. cbn [app]. rewrite Hc.
  apply greedy_complete; [exact Ha | simpl; rewrite Hq2; reflexivity |].
  cbn [mark group1]. rewrite Hq2. f_equal. f_equal. f_equal.
  change (firstn (length ((c :: a) ++ q2 :: rest) - length (q2 :: rest))
            ((c :: a) ++ q2 :: rest) = c :: a).
  apply firstn_group.
Qed.

(** [search] returns the argument of the leftmost fragment. *)
Lemma search_first_fragment (arg s : str) :
  first_fragment kw sep q arg s ->
  exists m, search (keyed kw sep q) s = Some m /\ group1 m = Some arg.
Proof.
  intros (pre & l2 & -> & F & Hfirst).
  destruct (keyed_complete mstate0 F) as (m & Hm & Hg).
  exists m. split; [|exact Hg].
  rewrite search_skip; [apply search_hit; exact Hm|].
  intros l1 l2' E Hl2'.
  destruct (run (keyed kw sep q) mstate0 (l2' ++ l2)) as [m'|] eqn:R;
    [|reflexivity].
  exfalso. apply keyed_sound in R. destruct R as (arg' & F' & _).
  apply (Hfirst l1 (l2' ++ l2) arg'); [| |exact F'].
  - rewrite E, <- app_assoc. reflexivity.
  - rewrite E, length_app. destruct l2'; [congruence|]. simpl. lia.
Qed.

(** A text without a fragment has no match. *)
Lemma search_no_fragment (s : str) :
  ~ has_fragment kw sep q s -> search (keyed kw sep q) s = None.
Proof.
  intros H. apply search_none. intros l1 l2 E.
  destruct (run (keyed kw sep q) mstate0 l2) as [m|] eqn:R; [|reflexivity].
  exfalso. apply H. apply keyed_sound in R. destruct R as (arg & F & _).
  exists l1, l2, arg. auto.
Qed.

(** Whatever [search] finds, group 1 is a non-empty text. *)
Lemma search_group (s : str) (m : mstate) :
  search (keyed kw sep q) s = Some m ->
  exists arg, group1 m = Some arg /\ arg <> [].
Proof.
  intros H. apply search_sound in H. destruct H as (l1 & l2 & _ & R).
  apply keyed_sound in R. destruct R as (arg & F & Hg).
  exists arg. split; [exact Hg|].
  destruct F as (? & ? & ? & ? & ? & _ & _ & _ & _ & _ & Hne & _).
  exact Hne.
Qed.

End Keyed.

(** ** Extractor *)

Lemma quote2_not_space (c : char) : quote2 c = true -> is_space c = false.
Proof.
  unfold quote2. intros H. apply orb_true_iff in H.
  destruct H as [H|H]; apply ceq_true in H; subst c; reflexivity.
Qed.

Lemma quote1_not_space (c : char) : quote1 c = true -> is_space c = false.
Proof.
  unfold quote1. intros H. apply ceq_true in H. subst c. reflexivity.
Qed.

(** The three rules share one shape; their properties are proved once. *)
Section Rule.

Variables (kw : str) (sep : char) (q : char -> bool) (default : str).

Hypothesis sep_not_space : is_space sep = false.
Hypothesis quote_not_space : forall c, q c = true -> is_space c = false.
Hypothesis default_not_empty : default <> [].

Local Abbreviation rule :=
  (fun content => group1_or default (search (keyed kw sep q) content)).

Lemma rule_first (arg content : str) :
  first_fragment kw sep q arg content -> rule content = Some arg.
Proof.
  intros F. cbv beta.
  destruct (search_first_fragment sep_not_space quote_not_space F)
    as (m & Hs & Hg).
  rewrite Hs. exact Hg.
Qed.

Lemma rule_default (content : str) :
  ~ has_fragment kw sep q content -> rule content = Some default.
Proof. intros H. cbv beta. rewrite (search_no_fragment H). reflexivity. Qed.

Lemma rule_total (content : str) :
  exists v, rule content = Some v /\ v <> [].
Proof.
  cbv beta. destruct (search (keyed kw sep q) content) as [m|] eqn:E.
  - destruct (search_group _ _ _ _ E) as (arg & Hg & Hne).
    exists arg. auto.
  - exists default. auto.
Qed.

End Rule.

Lemma extract_server_id_first (arg content : str) :
  first_fragment server_kw 40%N quote2 arg content ->
  extract_server_id content = Some arg.
Proof.
  apply (@rule_first server_kw 40%N quote2 (lit "ecosysjfrog"));
    [reflexivity | exact quote2_not_space].
Qed.

Lemma extract_pattern_first (arg content : str) :
  first_fragment pattern_kw 58%N quote1 arg content ->
  fst (extract_upload_spec content) = Some arg.
Proof.
  apply (@rule_first pattern_kw 58%N quote1 (lit "*.txt"));
    [reflexivity | exact quote1_not_space].
Qed.

Lemma extract_target_first (arg content : str) :
  first_fragment target_kw 58%N quote1 arg content ->
  snd (extract_upload_spec content) = Some arg.
Proof.
  apply (@rule_first target_kw 58%N quote1 (lit "repo/"));
    [reflexivity | exact quote1_not_space].
Qed.

Lemma keyword_positions_complete (kw l1 l2 : str) (i : nat) :
  prefixb kw l2 = true ->
  In (i + length l1) (keyword_positions kw (l1 ++ l2) i).
Proof.
  intros H. revert i. induction l1 as [|c l1 IH]; intros i.
  - simpl app. simpl length. rewrite Nat.add_0_r.
    destruct l2; simpl; rewrite H; left; reflexivity.
  - simpl. apply in_or_app. right.
    replace (i + S (length l1)) with (S i + length l1) by lia. apply IH.
Qed.

Lemma split_same_length (l1 l2 pre rest : str) :
  l1 ++ l2 = pre ++ rest -> length l1 = length pre -> l1 = pre.
Proof.
  revert pre. induction l1 as [|a l1 IH]; intros [|b pre] E L;
    simpl in *; try discriminate; [reflexivity|].
  injection E as -> E. f_equal. apply IH; [exact E | lia].
Qed.

(** If the keyword begins at one position only, a fragment can begin only
    there. *)
Lemma fragment_only_at (kw : str) (sep : char) (q : char -> bool)
    (pre rest : str) :
  keyword_positions kw (pre ++ rest) 0 = [length pre] ->
  forall l1 l2 arg, pre ++ rest = l1 ++ l2 -> l1 <> pre ->
    ~ fragment kw sep q arg l2.
Proof.
  intros K l1 l2 arg E Hne F. apply Hne.
  apply (split_same_length l1 l2 pre rest); [symmetry; exact E|].
  pose proof (keyword_positions_complete kw l1 l2 0 (fragment_keyword F)) as P.
  rewrite <- E, K in P. simpl in P. destruct P as [P|[]]. lia.
Qed.

(** If the keyword does not begin before a fragment, that fragment is the
    first. *)
Lemma first_fragment_at (kw : str) (sep : char) (q : char -> bool)
    (arg pre l2 : str) :
  fragment kw sep q arg l2 ->
  forallb (fun i => length pre <=? i) (keyword_positions kw (pre ++ l2) 0)
    = true ->
  first_fragment kw sep q arg (pre ++ l2).
Proof.
  intros F K. exists pre, l2. split; [reflexivity|]. split; [exact F|].
  intros l1' l2' arg' E L F'.
  pose proof (keyword_positions_complete kw l1' l2' 0 (fragment_keyword F'))
    as P.
  rewrite <- E in P. rewrite forallb_forall in K. apply K in P.
  apply Nat.leb_le in P. simpl in P. lia.
Qed.

(** A quoted argument right after the keyword and a parenthesis, or after
    the keyword, a colon and a space. *)
Lemma fragment_plain (kw : str) (sep : char) (q : char -> bool)
    (ws : str) (q1 q2 : char) (arg rest : str) :
  forallb is_space ws = true -> q q1 = true -> q q2 = true -> arg <> [] ->
  forallb (fun c => negb (q c)) arg = true ->
  fragment kw sep q arg (kw ++ sep :: ws ++ q1 :: arg ++ q2 :: rest).
Proof.
  intros Hws H1 H2 Ha Hq. exists [], ws, q1, q2, rest.
  repeat split; auto.
Qed.

(** The three extracted values are strings, and not empty. *)
Lemma extraction_defined (content : str) :
  exists server_id upload_pattern upload_target,
    extract_server_id content = Some server_id /\
    extract_upload_spec content = (Some upload_pattern, Some upload_target) /\
    server_id <> [] /\ upload_pattern <> [] /\ upload_target <> [].
Proof.
  destruct (@rule_total server_kw 40%N quote2 (lit "ecosysjfrog")
              ltac:(discriminate) content) as (sid & Hsid & Hs).
  destruct (@rule_total pattern_kw 58%N quote1 (lit "*.txt")
              ltac:(discriminate) content) as (pat & Hpat & Hp).
  destruct (@rule_total target_kw 58%N quote1 (lit "repo/")
              ltac:(discriminate) content) as (tgt & Htgt & Ht).
  exists sid, pat, tgt. repeat split; try assumption.
  unfold extract_upload_spec. f_equal; assumption.
Qed.

(** C5: for every input text, the empty one included, the extraction
    returns a server id, an upload pattern and an upload target, each a
    string (never [None]) and none of them empty; the four presence flags
    are booleans computed by [contains].  For the empty text the three
    values are the fallback literals. *)
Theorem extraction_total (content : str) :
  (exists server_id upload_pattern upload_target,
     extract_server_id content = Some server_id /\
     extract_upload_spec content = (Some upload_pattern, Some upload_target) /\
     server_id <> [] /\ upload_pattern <> [] /\ upload_target <> []) /\
  extract_server_id [] = Some (lit "ecosysjfrog") /\
  extract_upload_spec [] = (Some (lit "*.txt"), Some (lit "repo/")).
Proof.
  split; [apply extraction_defined | split; reflexivity].
Qed.

(** C6: a text without a server-constructor fragment gives the server id
    [ecosysjfrog]; a text without a [pattern] field gives the upload pattern
    [*.txt]; a text without a [target] field gives the upload target
    [repo/].  Each fallback depends on its own fragment only. *)
Theorem default_fallbacks (content : str) :
  (~ has_fragment server_kw 40%N quote2 content ->
   extract_server_id content = Some (lit "ecosysjfrog")) /\
  (~ has_fragment pattern_kw 58%N quote1 content ->
   fst (extract_upload_spec content) = Some (lit "*.txt")) /\
  (~ has_fragment target_kw 58%N quote1 content ->
   snd (extract_upload_spec content) = Some (lit "repo/")).
Proof.
  repeat split; intros H.
  - apply (@rule_default server_kw 40%N quote2 (lit "ecosysjfrog") _ H).
  - apply (@rule_default pattern_kw 58%N quote1 (lit "*.txt") _ H).
  - apply (@rule_default target_kw 58%N quote1 (lit "repo/") _ H).
Qed.

Lemma default_fallbacks_witness :
  let content :=
    lit "def spec = { " ++ pattern_kw ++ lit ": " ++ [dq] ++ lit "*.zip" ++
    [dq] ++ lit " }" in
  (~ has_fragment server_kw 40%N quote2 content /\
   ~ has_fragment target_kw 58%N quote1 content) /\
  extract_server_id content = Some (lit "ecosysjfrog") /\
  fst (extract_upload_spec content) = Some (lit "*.zip") /\
  snd (extract_upload_spec content) = Some (lit "repo/").
Proof.
  intros content.
  assert (Hs : ~ has_fragment server_kw 40%N quote2 content).
  { intros F. apply has_fragment_keyword in F. vm_compute in F. discriminate. }
  assert (Ht : ~ has_fragment target_kw 58%N quote1 content).
  { intros F. apply has_fragment_keyword in F. vm_compute in F. discriminate. }
  destruct (default_fallbacks content) as (D1 & _ & D3).
  split; [split; assumption|]. split; [exact (D1 Hs)|].
  split; [reflexivity | exact (D3 Ht)].
Defined.

(** C7: the text [Artifactory.server(&apos;srv1&apos;)], normalized and then
    given to the server-id rule, yields the server id [srv1]. *)
Theorem entity_decoding_scenario :
  extract_server_id
    (decode_html_entities (lit "Artifactory.server(&apos;srv1&apos;)"))
  = Some (lit "srv1").
Proof. vm_compute. reflexivity. Qed.

(** At an empty quoted argument the pattern has no match, whatever
    follows. *)
Lemma run_empty_argument (post : str) :
  run server_re mstate0 (lit "Artifactory.server('')" ++ post) = None.
Proof. reflexivity. Qed.

(** C10: for a text that contains [Artifactory.server('')] and in which no
    server-constructor fragment begins at any other position,
    [extract_server_id] returns the fallback [ecosysjfrog], not the empty
    string. *)
Theorem empty_server_argument_falls_back (pre post : str) :
  (forall l1 l2 arg,
     pre ++ lit "Artifactory.server('')" ++ post = l1 ++ l2 ->
     l1 <> pre -> ~ server_fragment arg l2) ->
  extract_server_id (pre ++ lit "Artifactory.server('')" ++ post)
  = Some (lit "ecosysjfrog").
Proof.
  intros H. unfold extract_server_id.
  rewrite search_none; [reflexivity|].
  intros l1 l2 E.
  destruct (list_eq_dec N.eq_dec l1 pre) as [->|Hne].
  - apply app_inv_head in E. subst l2. apply run_empty_argument.
  - destruct (run server_re mstate0 l2) as [m|] eqn:R; [|reflexivity].
    exfalso. apply keyed_sound in R. destruct R as (arg & F & _).
    exact (H l1 l2 arg E Hne F).
Qed.

Lemma empty_server_argument_falls_back_witness :
  let pre := lit "def server = " in
  let post := [nl] ++ lit "server.upload(spec)" in
  (forall l1 l2 arg,
     pre ++ lit "Artifactory.server('')" ++ post = l1 ++ l2 ->
     l1 <> pre -> ~ server_fragment arg l2) /\
  extract_server_id (pre ++ lit "Artifactory.server('')" ++ post)
  = Some (lit "ecosysjfrog").
Proof.
  intros pre post.
  assert (H : forall l1 l2 arg,
     pre ++ lit "Artifactory.server('')" ++ post = l1 ++ l2 ->
     l1 <> pre -> ~ server_fragment arg l2).
  { apply fragment_only_at. reflexivity. }
  split; [exact H|].
  apply (@empty_server_argument_falls_back pre post H).
Defined.

(** ** Synthesizer *)

Lemma converted_stages (content server_url server_user : str) :
  converted content server_url server_user =
  (stages <- stages_of content server_url server_user ;;
   sid <- extract_server_id content ;;
   Some (header sid ++ join [nl] stages ++ footer)).
Proof. reflexivity. Qed.

(** With the three values extracted, the list of stages is the Configure
    stage followed by the stages whose flag is set, in the order Ping,
    Upload, Publish. *)
Lemma build_stages_some (sid pat tgt : str) (ping upload publish : bool)
    (url user : str) :
  build_stages (Some sid) (Some pat) (Some tgt) ping upload publish url user
  = Some (configure_stage sid url user ::
          (if ping then [ping_stage] else []) ++
          (if upload then [upload_stage pat tgt] else []) ++
          (if publish then [publish_stage] else [])).
Proof. destruct ping, upload, publish; reflexivity. Qed.

Lemma stage_name_configure (sid url user : str) :
  stage_name (configure_stage sid url user) = Some configure_name.
Proof. reflexivity. Qed.

Lemma stage_name_ping : stage_name ping_stage = Some ping_name.
Proof. reflexivity. Qed.

Lemma stage_name_upload (pat tgt : str) :
  stage_name (upload_stage pat tgt) = Some upload_name.
Proof. reflexivity. Qed.

Lemma stage_name_publish : stage_name publish_stage = Some publish_name.
Proof. reflexivity. Qed.

Lemma stage_names_built (sid pat tgt : str) (ping upload publish : bool)
    (url user : str) :
  stage_names (configure_stage sid url user ::
               (if ping then [ping_stage] else []) ++
               (if upload then [upload_stage pat tgt] else []) ++
               (if publish then [publish_stage] else []))
  = Some configure_name ::
    (if ping then [Some ping_name] else []) ++
    (if upload then [Some upload_name] else []) ++
    (if publish then [Some publish_name] else []).
Proof. destruct ping, upload, publish; reflexivity. Qed.

(** The conversion never raises: it returns the header, the stages joined
    by line feeds, and the footer. *)
Lemma converted_total (content url user : str) :
  exists sid pat tgt,
    extract_server_id content = Some sid /\
    extract_upload_spec content = (Some pat, Some tgt) /\
    let stages :=
      configure_stage sid url user ::
      (if contains ping_marker content then [ping_stage] else []) ++
      (if contains upload_marker content then [upload_stage pat tgt] else []) ++
      (if contains publish_marker content then [publish_stage] else []) in
    stages_of content url user = Some stages /\
    converted content url user
    = Some (header sid ++ join [nl] stages ++ footer).
Proof.
  destruct (extraction_defined content)
    as (sid & pat & tgt & Hsid & Hspec & _).
  exists sid, pat, tgt. split; [exact Hsid|]. split; [exact Hspec|].
  cbv zeta.
  assert (S : stages_of content url user = Some
     (configure_stage sid url user ::
      (if contains ping_marker content then [ping_stage] else []) ++
      (if contains upload_marker content then [upload_stage pat tgt] else []) ++
      (if contains publish_marker content then [publish_stage] else []))).
  { unfold stages_of. rewrite Hsid, Hspec. apply build_stages_some. }
  split; [exact S|].
  rewrite converted_stages, S, Hsid. reflexivity.
Qed.

(** A text without any marker or fragment, the empty one for instance, is
    converted to a document with the Configure stage alone, made from the
    fallback server id. *)
Lemma stages_of_empty :
  stages_of [] default_server_url default_server_user
  = Some [configure_stage (lit "ecosysjfrog")
            default_server_url default_server_user].
Proof. reflexivity. Qed.





(** Equations between texts made of literals and unknown parts. *)
Ltac text_eq :=
  vm_compute; repeat (rewrite <- app_assoc; cbn [app]); reflexivity.

Lemma configure_stage_placeholder (sid url user : str) :
  occurs (config_add_command sid url user) (configure_stage sid url user).
Proof.
  exists (text [
      lit "        stage('Configure JFrog Server') {";
      lit "            steps {";
      lit "                script {";
      lit "                    echo '=== Configuring JFrog Server ==='";
      lit "                    "]).
  exists ([nl] ++ text [
      lit "                    jf 'c use " ++ sid ++ lit "'";
      lit "                    echo '" ++ [check_mark] ++ lit " Server configured'";
      lit "                }";
      lit "            }";
      lit "        }"]).
  text_eq.
Qed.

Lemma join_head (sep p : str) (rest : list str) :
  exists r, join sep (p :: rest) = p ++ r.
Proof.
  destruct rest as [|p' rest].
  - exists []. simpl. symmetry. apply app_nil_r.
  - exists (sep ++ join sep (p' :: rest)). reflexivity.
Qed.

Lemma occurs_trans (a b c : str) : occurs a b -> occurs b c -> occurs a c.
Proof.
  intros (l1 & r1 & ->) (l2 & r2 & ->).
  exists (l2 ++ l1), (r1 ++ r2). repeat rewrite <- app_assoc. reflexivity.
Qed.

(** C8: for every input text the conversion returns a document that
    contains the Configure stage, and the command line of that stage reads
    [--password=YOUR_PASSWORD]: the placeholder is there whatever the input,
    and the password is no other text. *)
Theorem credential_placeholder (content url user : str) :
  exists sid out,
    extract_server_id content = Some sid /\
    converted content url user = Some out /\
    occurs (configure_stage sid url user) out /\
    occurs (config_add_command sid url user) (configure_stage sid url user) /\
    contains (config_add_command sid url user) out = true.
Proof.
  destruct (converted_total content url user)
    as (sid & pat & tgt & Hsid & _ & _ & C).
  cbv zeta in C. eexists sid, _. split; [exact Hsid|]. split; [exact C|].
  assert (O : occurs (configure_stage sid url user)
     (header sid ++
      join [nl]
        (configure_stage sid url user ::
         (if contains ping_marker content then [ping_stage] else []) ++
         (if contains upload_marker content
          then [upload_stage pat tgt] else []) ++
         (if contains publish_marker content then [publish_stage] else [])) ++
      footer)).
  { destruct (join_head [nl] (configure_stage sid url user)
       ((if contains ping_marker content then [ping_stage] else []) ++
        (if contains upload_marker content
         then [upload_stage pat tgt] else []) ++
        (if contains publish_marker content then [publish_stage] else [])))
      as (r & ->).
    exists (header sid), (r ++ footer). rewrite <- app_assoc. reflexivity. }
  split; [exact O|]. split; [apply configure_stage_placeholder|].
  apply contains_occurs.
  exact (occurs_trans (configure_stage_placeholder sid url user) O).
Qed.

(** C9: two input texts that yield the same server id, upload pattern and
    upload target and agree on the Ping, upload-call and publish-call
    markers are converted to the same document, whether or not the Setup
    marker occurs in them; the first three printed lines are the same too,
    so that the Setup flag shows in the last printed line only. *)
Theorem setup_noninterference (c1 c2 url user : str) :
  extract_server_id c1 = extract_server_id c2 ->
  extract_upload_spec c1 = extract_upload_spec c2 ->
  contains ping_marker c1 = contains ping_marker c2 ->
  contains upload_marker c1 = contains upload_marker c2 ->
  contains publish_marker c1 = contains publish_marker c2 ->
  converted c1 url user = converted c2 url user /\
  firstn 3 (fst (convert_pipeline c1 url user))
  = firstn 3 (fst (convert_pipeline c2 url user)).
Proof.
  intros Hsid Hspec Hping Hup Hpub. split.
  - rewrite !converted_stages. unfold stages_of.
    rewrite Hsid, Hspec, Hping, Hup, Hpub. reflexivity.
  - unfold convert_pipeline.
    change (extract_upload_spec c1)
      with (fst (extract_upload_spec c1), snd (extract_upload_spec c1)).
    change (extract_upload_spec c2)
      with (fst (extract_upload_spec c2), snd (extract_upload_spec c2))
      at 1.
    cbv iota beta zeta. cbn [fst firstn app].
    rewrite Hsid, Hspec. reflexivity.
Qed.

Lemma setup_noninterference_witness :
  let c1 :=
    lit "stage('Setup Artifactory') { def server = Artifactory.server('s1') }"
    ++ lit " stage('Ping Artifactory') { server.upload(spec) }" in
  let c2 :=
    lit "def server = Artifactory.server('s1');"
    ++ lit " stage('Ping Artifactory') { server.upload(spec) }" in
  (contains setup_marker c1 = true /\ contains setup_marker c2 = false) /\
  converted c1 default_server_url default_server_user
  = converted c2 default_server_url default_server_user.
Proof.
  intros c1 c2. split; [split; reflexivity|].
  apply (@setup_noninterference c1 c2 default_server_url default_server_user);
    reflexivity.
Defined.

(** ** The concrete scenario *)

(** C2, as the claim states it, fails: a text can contain every fragment of
    the scenario and yet be converted for another server, because each rule
    takes the first fragment of its kind.  Here the name [myserver] occurs
    nowhere in the output; the Configure stage is made for [legacy]. *)
Lemma concrete_scenario_counterexample :
  (contains myserver_call two_servers_pipeline = true /\
   contains zip_field two_servers_pipeline = true /\
   contains libs_field two_servers_pipeline = true /\
   contains upload_marker two_servers_pipeline = true /\
   contains publish_marker two_servers_pipeline = true /\
   contains setup_marker two_servers_pipeline = false /\
   contains ping_marker two_servers_pipeline = false) /\
  exists out,
    converted two_servers_pipeline default_server_url default_server_user
    = Some out /\
    contains (lit "myserver") out = false /\
    stages_of two_servers_pipeline default_server_url default_server_user
    = Some [configure_stage (lit "legacy")
              default_server_url default_server_user;
            upload_stage (lit "*.zip") (lit "libs-release/");
            publish_stage].
Proof.
  split; [repeat split; vm_compute; reflexivity|].
  eexists. split; [vm_compute; reflexivity|].
  split; vm_compute; reflexivity.
Qed.

(** C2 (amended): for every input text whose first server-constructor
    fragment has the argument [myserver], whose first [pattern] field has
    the value [*.zip] and whose first [target] field has the value
    [libs-release/], that contains [server.upload] and [publishBuildInfo]
    and neither the Setup marker nor the Ping marker, the conversion returns
    a document with exactly three stages: Configure for [myserver], Upload
    of [*.zip] to [libs-release/], and Publish; no Ping and no Setup
    stage. *)
Theorem concrete_scenario (content url user : str) :
  first_fragment server_kw 40%N quote2 (lit "myserver") content ->
  first_fragment pattern_kw 58%N quote1 (lit "*.zip") content ->
  first_fragment target_kw 58%N quote1 (lit "libs-release/") content ->
  contains upload_marker content = true ->
  contains publish_marker content = true ->
  contains setup_marker content = false ->
  contains ping_marker content = false ->
  let stages := [configure_stage (lit "myserver") url user;
                 upload_stage (lit "*.zip") (lit "libs-release/");
                 publish_stage] in
  stages_of content url user = Some stages /\
  converted content url user
  = Some (header (lit "myserver") ++ join [nl] stages ++ footer) /\
  stage_names stages
  = [Some configure_name; Some upload_name; Some publish_name] /\
  contains (lit "jf 'rt u *.zip libs-release/'")
    (upload_stage (lit "*.zip") (lit "libs-release/")) = true.
Proof.
  intros Fs Fp Ft Hup Hpub _ Hping stages.
  apply extract_server_id_first in Fs.
  apply extract_pattern_first in Fp.
  apply extract_target_first in Ft.
  assert (S : stages_of content url user = Some stages).
  { unfold stages_of. rewrite Fs, Fp, Ft, Hup, Hpub, Hping. reflexivity. }
  split; [exact S|].
  split; [rewrite converted_stages, S, Fs; reflexivity|].
  split; reflexivity.
Qed.

Lemma concrete_scenario_witness :
  (first_fragment server_kw 40%N quote2 (lit "myserver") scenario_pipeline /\
   first_fragment pattern_kw 58%N quote1 (lit "*.zip") scenario_pipeline /\
   first_fragment target_kw 58%N quote1 (lit "libs-release/")
     scenario_pipeline) /\
  stages_of scenario_pipeline default_server_url default_server_user
  = Some [configure_stage (lit "myserver")
            default_server_url default_server_user;
          upload_stage (lit "*.zip") (lit "libs-release/");
          publish_stage].
Proof.
  assert (Fs : first_fragment server_kw 40%N quote2 (lit "myserver")
                 scenario_pipeline).
  { replace scenario_pipeline
      with (firstn 22 scenario_pipeline ++
            server_kw ++ 40%N :: [] ++ sq :: lit "myserver" ++ sq ::
            skipn 51 scenario_pipeline) at 1
      by (vm_compute; reflexivity).
    apply first_fragment_at.
    - apply fragment_plain; try reflexivity. discriminate.
    - vm_compute. reflexivity. }
  assert (Fp : first_fragment pattern_kw 58%N quote1 (lit "*.zip")
                 scenario_pipeline).
  { replace scenario_pipeline
      with (firstn 69 scenario_pipeline ++
            pattern_kw ++ 58%N :: [32%N] ++ dq :: lit "*.zip" ++ dq ::
            skipn 87 scenario_pipeline) at 1
      by (vm_compute; reflexivity).
    apply first_fragment_at.
    - apply fragment_plain; try reflexivity. discriminate.
    - vm_compute. reflexivity. }
  assert (Ft : first_fragment target_kw 58%N quote1 (lit "libs-release/")
                 scenario_pipeline).
  { replace scenario_pipeline
      with (firstn 89 scenario_pipeline ++
            target_kw ++ 58%N :: [32%N] ++ dq :: lit "libs-release/" ++ dq ::
            skipn 114 scenario_pipeline) at 1
      by (vm_compute; reflexivity).
    apply first_fragment_at.
    - apply fragment_plain; try reflexivity. discriminate.
    - vm_compute. reflexivity. }
  split; [split; [exact Fs | split; [exact Fp | exact Ft]]|].
  apply (@concrete_scenario scenario_pipeline
           default_server_url default_server_user Fs Fp Ft);
    reflexivity.
Defined.

(** * Further properties *)

(** ** Normalizer *)

(** A text in which none of the five references occurs, a text without
    [&] for instance, is returned as it is. *)
Theorem decode_without_references (t : str) :
  (forall e, In e references -> contains e t = false) ->
  decode_html_entities t = t.
Proof. exact (@decode_fixed t). Qed.

Lemma decode_without_references_witness :
  let t := lit "sh 'make && make install' // R&D, a;b" in
  (forall e, In e references -> contains e t = false) /\
  decode_html_entities t = t.
Proof.
  intros t.
  assert (H : forall e, In e references -> contains e t = false).
  { intros e He. simpl in He.
    destruct He as [<-|[<-|[<-|[<-|[<-|[]]]]]]; reflexivity. }
  split; [exact H|]. apply (@decode_without_references t H).
Defined.

(** For a text without a double-encoded reference the normalizer leaves no
    reference behind: its output is fully decoded. *)
Theorem decode_leaves_no_reference (t : str) :
  (forall e, In e double_encoded -> contains e t = false) ->
  forall e, In e references -> contains e (decode_html_entities t) = false.
Proof. exact (@decode_clean t). Qed.

Lemma decode_leaves_no_reference_witness :
  let t := lit "if (a &lt; b &amp;&amp; c &gt; d) { echo &quot;x&quot; }" in
  (forall e, In e double_encoded -> contains e t = false) /\
  forall e, In e references -> contains e (decode_html_entities t) = false.
Proof.
  intros t.
  assert (H : forall e, In e double_encoded -> contains e t = false).
  { intros e He. simpl in He.
    destruct He as [<-|[<-|[<-|[<-|[<-|[]]]]]]; reflexivity. }
  split; [exact H|]. apply (@decode_leaves_no_reference t H).
Defined.

Lemma replace_length (o : char) (ot new s : str) :
  length new <= S (length ot) ->
  length (replace_from (o :: ot) new 0 s) <= length s.
Proof.
  intros Hn. pattern s. apply (@scan_ind o ot); clear s.
  - simpl. lia.
  - intros rest IH. rewrite replace_hit. rewrite !length_app. simpl. lia.
  - intros c s Hm IH. rewrite replace_miss by exact Hm. simpl. lia.
Qed.

(** The normalizer never makes a text longer: every replacement puts one
    character in the place of four to six. *)
Theorem decode_never_longer (t : str) :
  length (decode_html_entities t) <= length t.
Proof.
  unfold decode_html_entities.
  eapply Nat.le_trans;
    [apply (@replace_length 38%N (lit "amp;") (lit "&")); simpl; lia|].
  eapply Nat.le_trans;
    [apply (@replace_length 38%N (lit "lt;") (lit "<")); simpl; lia|].
  eapply Nat.le_trans;
    [apply (@replace_length 38%N (lit "gt;") (lit ">")); simpl; lia|].
  eapply Nat.le_trans;
    [apply (@replace_length 38%N (lit "quot;") [dq]); simpl; lia|].
  apply (@replace_length 38%N (lit "apos;") [sq]). simpl. lia.
Qed.

(** *** The round trip with the escaping *)

Lemma entity_of_app (tbl : list (char * str)) (k : char) (e : str)
    (c : char) :
  entity_of (tbl ++ [(k, e)]) c =
  match entity_of tbl c with
  | Some e' => Some e'
  | None => if ceq c k then Some e else None
  end.
Proof.
  induction tbl as [|[k' e'] tbl IH]; simpl; [reflexivity|].
  destruct (ceq c k'); [reflexivity | exact IH].
Qed.

Lemma entity_of_some (tbl : list (char * str)) (c : char) (e : str) :
  entity_of tbl c = Some e -> In (c, e) tbl.
Proof.
  induction tbl as [|[k' e'] tbl IH]; simpl; [discriminate|].
  destruct (ceq c k') eqn:E.
  - intros H. injection H as ->. apply ceq_true in E. subst k'. left.
    reflexivity.
  - intros H. right. apply IH. exact H.
Qed.

Lemma entity_of_none (tbl : list (char * str)) (c : char) :
  entity_of tbl c = None -> ~ In c (List.map fst tbl).
Proof.
  induction tbl as [|[k' e'] tbl IH]; simpl; [tauto|].
  destruct (ceq c k') eqn:E; [discriminate|].
  intros H [Hk|Hin].
  - subst k'. rewrite ceq_refl in E. discriminate.
  - exact (IH H Hin).
Qed.

(** One replacement undoes the last entry of the table, if it passes over
    the references of the other entries and every [&] of the escaped text
    begins a reference. *)
Lemma replace_unescapes (tbl : list (char * str)) (k o : char) (ot : str) :
  (forall k' e', In (k', e') tbl ->
     forall rest, replace_from (o :: ot) [k] 0 (e' ++ rest)
                  = e' ++ replace_from (o :: ot) [k] 0 rest) ->
  (o = k \/ In o (List.map fst tbl)) ->
  forall t,
    replace_from (o :: ot) [k] 0
      (flat_map (escape_with (tbl ++ [(k, o :: ot)])) t)
    = flat_map (escape_with tbl) t.
Proof.
  intros Hpass Ho. induction t as [|c t IH]; [reflexivity|].
  cbn [flat_map]. unfold escape_with at 1 3. rewrite entity_of_app.
  destruct (entity_of tbl c) as [e'|] eqn:E.
  - rewrite (Hpass c e' (entity_of_some _ _ E)). f_equal. exact IH.
  - destruct (ceq c k) eqn:Ek.
    + apply ceq_true in Ek. subst c. rewrite replace_hit. simpl.
      f_equal. exact IH.
    + cbn [app]. rewrite replace_miss; [f_equal; exact IH|].
      simpl. destruct (ceq o c) eqn:Eo; [|reflexivity]. exfalso.
      apply ceq_true in Eo. subst c. destruct Ho as [->|Hin].
      * rewrite ceq_refl in Ek. discriminate.
      * exact (entity_of_none _ _ E Hin).
Qed.

Lemma flat_map_escape_nil (t : str) : flat_map (escape_with []) t = t.
Proof. induction t as [|c t IH]; simpl; [|f_equal]; auto. Qed.

Ltac pass_over :=
  intros k' e' Hin rest; simpl in Hin;
  repeat (destruct Hin as [Hin|Hin];
          [injection Hin as <- <-; reflexivity|]);
  destruct Hin.

(** The five replacements, in their order, undo the escaping. *)
Lemma decode_escaped (t : str) :
  decode_html_entities (xml_escape t) = t.
Proof.
  unfold decode_html_entities, xml_escape.
  change (replace (lit "&apos;") [sq] (flat_map (escape_with entity_table) t))
    with (replace_from (38%N :: lit "apos;") [39%N] 0
            (flat_map (escape_with (firstn 4 entity_table ++
                                    [(39%N, 38%N :: lit "apos;")])) t)).
  rewrite replace_unescapes; [|pass_over|right; simpl; tauto].
  change (replace (lit "&quot;") [dq]
            (flat_map (escape_with (firstn 4 entity_table)) t))
    with (replace_from (38%N :: lit "quot;") [34%N] 0
            (flat_map (escape_with (firstn 3 entity_table ++
                                    [(34%N, 38%N :: lit "quot;")])) t)).
  rewrite replace_unescapes; [|pass_over|right; simpl; tauto].
  change (replace (lit "&gt;") (lit ">")
            (flat_map (escape_with (firstn 3 entity_table)) t))
    with (replace_from (38%N :: lit "gt;") [62%N] 0
            (flat_map (escape_with (firstn 2 entity_table ++
                                    [(62%N, 38%N :: lit "gt;")])) t)).
  rewrite replace_unescapes; [|pass_over|right; simpl; tauto].
  change (replace (lit "&lt;") (lit "<")
            (flat_map (escape_with (firstn 2 entity_table)) t))
    with (replace_from (38%N :: lit "lt;") [60%N] 0
            (flat_map (escape_with (firstn 1 entity_table ++
                                    [(60%N, 38%N :: lit "lt;")])) t)).
  rewrite replace_unescapes; [|pass_over|right; simpl; tauto].
  change (replace (lit "&amp;") (lit "&")
            (flat_map (escape_with (firstn 1 entity_table)) t))
    with (replace_from (38%N :: lit "amp;") [38%N] 0
            (flat_map (escape_with ([] ++ [(38%N, 38%N :: lit "amp;")])) t)).
  rewrite replace_unescapes; [|pass_over|left; reflexivity].
  apply flat_map_escape_nil.
Qed.

(** Decoding an escaped text gives the text back, for every text: the
    normalizer is a left inverse of the escaping.  That [&amp;] is replaced
    last is what makes this hold. *)
Theorem decode_xml_escape (t : str) :
  decode_html_entities (xml_escape t) = t.
Proof. exact (decode_escaped t). Qed.

(** ** Extractor *)

Section RuleShape.

Variables (kw : str) (sep : char) (q : char -> bool) (default : str).

Hypothesis default_not_empty : default <> [].
Hypothesis default_no_quote : forallb (fun c => negb (q c)) default = true.

(** What a rule returns is never empty and holds no quote; it is the
    fallback or a piece of the text. *)
Lemma rule_shape (content : str) :
  exists v,
    group1_or default (search (keyed kw sep q) content) = Some v /\
    v <> [] /\ forallb (fun c => negb (q c)) v = true /\
    (v = default \/ occurs v content).
Proof.
  destruct (search (keyed kw sep q) content) as [m|] eqn:E.
  - apply search_sound in E. destruct E as (l1 & l2 & -> & R).
    apply keyed_sound in R. destruct R as (arg & F & Hg).
    destruct F as (ws1 & ws2 & q1 & q2 & rest & -> & _ & _ & _ & _ & Hne & Hq).
    exists arg. split; [exact Hg|]. split; [exact Hne|]. split; [exact Hq|].
    right. exists (l1 ++ kw ++ ws1 ++ sep :: ws2 ++ [q1]), (q2 :: rest).
    repeat rewrite <- app_assoc. simpl. repeat rewrite <- app_assoc.
    reflexivity.
  - exists default. simpl. auto.
Qed.

End RuleShape.

(** The server id that is extracted is never empty and contains neither an
    apostrophe nor a double quote, so that it cannot end the quoted command
    of the Configure stage; it is the fallback or occurs in the text. *)
Theorem server_id_shape (content : str) :
  exists sid,
    extract_server_id content = Some sid /\
    sid <> [] /\
    forallb (fun c => negb (quote2 c)) sid = true /\
    (sid = lit "ecosysjfrog" \/ occurs sid content).
Proof.
  apply (@rule_shape server_kw 40%N quote2 (lit "ecosysjfrog"));
    [discriminate | reflexivity].
Qed.

(** The upload pattern and the upload target that are extracted are never
    empty and contain no double quote; each is its fallback or occurs in the
    text. *)
Theorem upload_spec_shape (content : str) :
  exists pat tgt,
    extract_upload_spec content = (Some pat, Some tgt) /\
    (pat <> [] /\ forallb (fun c => negb (quote1 c)) pat = true /\
     (pat = lit "*.txt" \/ occurs pat content)) /\
    (tgt <> [] /\ forallb (fun c => negb (quote1 c)) tgt = true /\
     (tgt = lit "repo/" \/ occurs tgt content)).
Proof.
  destruct (@rule_shape pattern_kw 58%N quote1 (lit "*.txt")
              ltac:(discriminate) eq_refl content) as (pat & Hp & Hpat).
  destruct (@rule_shape target_kw 58%N quote1 (lit "repo/")
              ltac:(discriminate) eq_refl content) as (tgt & Ht & Htgt).
  exists pat, tgt. split; [|split; assumption].
  unfold extract_upload_spec. f_equal; assumption.
Qed.

(** Each rule returns the argument of the leftmost fragment of its kind:
    later fragments are not used.  White space around the separator and the
    kind of the two quotes do not matter. *)
Theorem extract_leftmost (content : str) :
  (forall arg, first_fragment server_kw 40%N quote2 arg content ->
     extract_server_id content = Some arg) /\
  (forall arg, first_fragment pattern_kw 58%N quote1 arg content ->
     fst (extract_upload_spec content) = Some arg) /\
  (forall arg, first_fragment target_kw 58%N quote1 arg content ->
     snd (extract_upload_spec content) = Some arg).
Proof.
  split; [|split]; intros arg F.
  - apply extract_server_id_first. exact F.
  - apply extract_pattern_first. exact F.
  - apply extract_target_first. exact F.
Qed.

Lemma extract_leftmost_witness :
  let content :=
    lit "def a = Artifactory.server ( " ++ [dq] ++ lit "prod' )" ++ [nl] ++
    lit "def b = Artifactory.server('other')" in
  first_fragment server_kw 40%N quote2 (lit "prod") content /\
  extract_server_id content = Some (lit "prod").
Proof.
  intros content.
  assert (F : first_fragment server_kw 40%N quote2 (lit "prod") content).
  { replace content
      with (firstn 8 content ++
            server_kw ++ [32%N] ++ 40%N :: [32%N] ++ dq :: lit "prod" ++ sq ::
            skipn 35 content)
      by (vm_compute; reflexivity).
    apply first_fragment_at.
    - exists [32%N], [32%N], dq, sq, (skipn 35 content).
      repeat split; try reflexivity. discriminate.
    - vm_compute. reflexivity. }
  split; [exact F|].
  destruct (extract_leftmost content) as (H & _ & _). exact (H _ F).
Defined.

Lemma xml_escape_app (a b : str) :
  xml_escape (a ++ b) = xml_escape a ++ xml_escape b.
Proof. apply flat_map_app. Qed.

(** A server declared with [&apos;] for the quotes, as an XML export writes
    it, is found after normalization, whatever its name: for every
    non-empty name without a quote, escaped or not in the export. *)
Theorem server_id_of_export (name rest : str) :
  name <> [] ->
  forallb (fun c => negb (quote2 c)) name = true ->
  extract_server_id
    (decode_html_entities
       (lit "Artifactory.server(&apos;" ++ xml_escape name ++ lit "&apos;" ++
        xml_escape rest))
  = Some name.
Proof.
  intros Hne Hq.
  replace (lit "Artifactory.server(&apos;" ++ xml_escape name ++
           lit "&apos;" ++ xml_escape rest)
    with (xml_escape (lit "Artifactory.server('" ++ name ++ lit "'" ++ rest))
    by (rewrite !xml_escape_app; reflexivity).
  rewrite decode_escaped.
  apply extract_server_id_first.
  exists [], (lit "Artifactory.server('" ++ name ++ lit "'" ++ rest).
  split; [reflexivity|]. split.
  - exists [], [], sq, sq, rest. repeat split; auto.
  - intros l1' l2' arg' _ L. simpl in L. lia.
Qed.

Lemma server_id_of_export_witness :
  let name := lit "R&D <eu>" in
  (name <> [] /\ forallb (fun c => negb (quote2 c)) name = true) /\
  extract_server_id
    (decode_html_entities
       (lit "Artifactory.server(&apos;R&amp;D &lt;eu&gt;&apos;)"))
  = Some name.
Proof.
  intros name.
  assert (Hne : name <> []) by discriminate.
  assert (Hq : forallb (fun c => negb (quote2 c)) name = true)
    by reflexivity.
  split; [split; assumption|].
  exact (@server_id_of_export name (lit ")") Hne Hq).
Defined.

(** ** Synthesizer *)

Lemma contains_app_left (p s r : str) :
  contains p s = true -> contains p (s ++ r) = true.
Proof.
  intros H. apply contains_occurs in H. apply contains_occurs.
  destruct H as (a & b & ->). exists a, (b ++ r).
  rewrite <- !app_assoc. reflexivity.
Qed.

Lemma contains_inside (p pre s post : str) :
  contains p s = true -> contains p (pre ++ s ++ post) = true.
Proof.
  intros H. apply contains_app_r. apply contains_app_left. exact H.
Qed.

Ltac names_differ H := vm_compute in H; discriminate H.

(** The names in a list of stages: Configure, and the name of each stage
    whose flag is set. *)
Lemma stage_names_in (x : option str) (ping upload publish : bool) :
  In x (Some configure_name ::
        (if ping then [Some ping_name] else []) ++
        (if upload then [Some upload_name] else []) ++
        (if publish then [Some publish_name] else []))
  <-> x = Some configure_name \/
      (ping = true /\ x = Some ping_name) \/
      (upload = true /\ x = Some upload_name) \/
      (publish = true /\ x = Some publish_name).
Proof.
  destruct ping, upload, publish; simpl; split; intros H;
    repeat match goal with
           | H : _ \/ _ |- _ => destruct H as [H|H]
           | H : _ /\ _ |- _ => destruct H as [? H]
           | H : False |- _ => destruct H
           | H : false = true |- _ => discriminate H
           end;
    subst; auto 10.
Qed.

(** A stage is in the document exactly when its marker is in the text: Ping
    for [stage('Ping Artifactory')], Upload for [server.upload], Publish for
    [publishBuildInfo]; and the document has one stage more than there are
    markers in the text. *)
Theorem stage_iff_marker (content url user : str) :
  exists stages,
    stages_of content url user = Some stages /\
    (In (Some ping_name) (stage_names stages)
     <-> contains ping_marker content = true) /\
    (In (Some upload_name) (stage_names stages)
     <-> contains upload_marker content = true) /\
    (In (Some publish_name) (stage_names stages)
     <-> contains publish_marker content = true) /\
    length stages
    = 1 + (if contains ping_marker content then 1 else 0)
        + (if contains upload_marker content then 1 else 0)
        + (if contains publish_marker content then 1 else 0).
Proof.
  destruct (converted_total content url user)
    as (sid & pat & tgt & _ & _ & S & _).
  eexists. split; [exact S|]. rewrite stage_names_built.
  rewrite !stage_names_in.
  destruct (contains ping_marker content), (contains upload_marker content),
    (contains publish_marker content);
    (repeat split; try reflexivity; intros H; auto 10;
     repeat match goal with
            | H : _ \/ _ |- _ => destruct H as [H|H]
            | H : _ /\ _ |- _ => destruct H as [? H]
            end;
     try discriminate; names_differ H).
Qed.

(** Text put before and after a pipeline never takes a stage away: every
    stage of the conversion of [s] is a stage of the conversion of
    [pre ++ s ++ post]. *)
Theorem stages_kept_in_context (pre s post url user : str) :
  exists stages stages',
    stages_of s url user = Some stages /\
    stages_of (pre ++ s ++ post) url user = Some stages' /\
    forall x, In x (stage_names stages) -> In x (stage_names stages').
Proof.
  destruct (converted_total s url user)
    as (sid & pat & tgt & _ & _ & S & _).
  destruct (converted_total (pre ++ s ++ post) url user)
    as (sid' & pat' & tgt' & _ & _ & S' & _).
  eexists _, _. split; [exact S|]. split; [exact S'|].
  intros x. rewrite !stage_names_built, !stage_names_in.
  intros [H|[[H1 H2]|[[H1 H2]|[H1 H2]]]]; auto;
    apply (contains_inside _ pre _ post) in H1; auto 10.
Qed.

Lemma stages_kept_in_context_witness :
  let s := lit "stage('Ping Artifactory') { }" in
  let pre := lit "pipeline { " in
  let post := lit " server.upload(spec) }" in
  exists stages stages',
    stages_of s default_server_url default_server_user = Some stages /\
    stages_of (pre ++ s ++ post) default_server_url default_server_user
    = Some stages' /\
    In (Some ping_name) (stage_names stages) /\
    In (Some ping_name) (stage_names stages').
Proof.
  intros s pre post.
  destruct (stages_kept_in_context pre s post
              default_server_url default_server_user)
    as (stages & stages' & S & S' & K).
  exists stages, stages'. split; [exact S|]. split; [exact S'|].
  assert (I : In (Some ping_name) (stage_names stages)).
  { assert (X : stages_of s default_server_url default_server_user
                = Some [configure_stage (lit "ecosysjfrog")
                          default_server_url default_server_user;
                        ping_stage]) by reflexivity.
    rewrite X in S. injection S as <-. right. left. reflexivity. }
  split; [exact I | exact (K _ I)].
Defined.

(** *** The line of the placeholder *)

Lemma avoids_app (d : char) (a b : str) :
  avoids d (a ++ b) = avoids d a && avoids d b.
Proof. unfold avoids. rewrite existsb_app, negb_orb. reflexivity. Qed.

Lemma split_on_line (d : char) (a b : str) :
  avoids d a = true -> split_on d (a ++ d :: b) = a :: split_on d b.
Proof.
  induction a as [|c a IH]; intros H.
  - simpl. rewrite ceq_refl. reflexivity.
  - apply avoids_cons in H. destruct H as [Hc Ha]. simpl.
    rewrite Hc, (IH Ha). reflexivity.
Qed.

(** The first lines of a text that begins with lines joined by [d]. *)
Lemma nth_split_on (d : char) (ls : list str) (r : str) (i : nat) :
  forallb (avoids d) ls = true -> i < length ls ->
  nth i (split_on d (join [d] ls ++ d :: r)) [] = nth i ls [].
Proof.
  revert i. induction ls as [|l ls IH]; intros i H Hi; [simpl in Hi; lia|].
  simpl in H. apply andb_true_iff in H. destruct H as [Hl Hls].
  destruct ls as [|l' ls].
  - simpl join. rewrite split_on_line by exact Hl.
    destruct i as [|i]; [reflexivity | simpl in Hi; lia].
  - change (join [d] (l :: l' :: ls)) with (l ++ [d] ++ join [d] (l' :: ls)).
    rewrite <- !app_assoc. simpl app at 2. simpl app at 2.
    rewrite split_on_line by exact Hl.
    destruct i as [|i]; [reflexivity|].
    simpl nth. apply IH; [exact Hls | simpl in Hi |- *; lia].
Qed.

(** Equations between texts, up to the association of [++]. *)
Ltac lines_eq :=
  cbv -[app];
  repeat (progress (cbn [app]; rewrite <- ?app_assoc));
  reflexivity.

Lemma document_first_lines (sid url user r : str) :
  exists r',
    header sid ++ (configure_stage sid url user ++ r) ++ footer
    = join [nl] (first_lines sid url user) ++ nl :: r'.
Proof.
  exists (text [
      lit "                    jf 'c use " ++ sid ++ lit "'";
      lit "                    echo '" ++ [check_mark] ++ lit " Server configured'";
      lit "                }";
      lit "            }";
      lit "        }"] ++ r ++ footer).
  lines_eq.
Qed.

Lemma first_lines_avoid (sid url user : str) :
  avoids nl sid = true -> avoids nl url = true -> avoids nl user = true ->
  forallb (avoids nl) (first_lines sid url user) = true.
Proof.
  intros Hs Hu Hv. unfold first_lines, configure_command_line,
    config_add_command. cbn [forallb].
  rewrite !avoids_app, Hs, Hu, Hv. reflexivity.
Qed.

(** When the server id, the URL and the user name hold no line feed, the
    [config add] command with [YOUR_PASSWORD] is line 25 of the document,
    and line 24 is the [echo] before it. *)
Theorem placeholder_line (content url user : str) :
  avoids nl url = true -> avoids nl user = true ->
  exists sid out,
    extract_server_id content = Some sid /\
    converted content url user = Some out /\
    (avoids nl sid = true ->
     nth 23 (split_on nl out) [] = configure_echo_line /\
     nth 24 (split_on nl out) [] = configure_command_line sid url user /\
     contains (lit "YOUR_PASSWORD") (nth 23 (split_on nl out) []) = false /\
     contains (lit "YOUR_PASSWORD") (nth 24 (split_on nl out) []) = true).
Proof.
  intros Hu Hv.
  destruct (converted_total content url user)
    as (sid & pat & tgt & Hsid & _ & _ & C).
  cbv zeta in C. eexists sid, _. split; [exact Hsid|]. split; [exact C|].
  intros Hs.
  destruct (join_head [nl] (configure_stage sid url user)
       ((if contains ping_marker content then [ping_stage] else []) ++
        (if contains upload_marker content
         then [upload_stage pat tgt] else []) ++
        (if contains publish_marker content then [publish_stage] else [])))
    as (r & ->).
  destruct (document_first_lines sid url user r) as (r' & ->).
  pose proof (first_lines_avoid sid url user Hs Hu Hv) as A.
  rewrite !nth_split_on by (exact A || (simpl; lia)).
  split; [reflexivity|]. split; [reflexivity|]. split; [reflexivity|].
  change (nth 24 (first_lines sid url user) [])
    with (configure_command_line sid url user).
  apply contains_occurs.
  exists (lit "                    jf 'config add " ++ sid ++ lit " --url=" ++
          url ++ lit " --user=" ++ user ++ lit " --password="),
         (lit " --interactive=false'").
  unfold configure_command_line, config_add_command. lines_eq.
Qed.

Lemma placeholder_line_witness :
  (avoids nl default_server_url = true /\
   avoids nl default_server_user = true) /\
  exists out,
    converted scenario_pipeline default_server_url default_server_user
    = Some out /\
    nth 24 (split_on nl out) []
    = configure_command_line (lit "myserver")
        default_server_url default_server_user.
Proof.
  split; [split; reflexivity|].
  destruct (@placeholder_line scenario_pipeline
              default_server_url default_server_user eq_refl eq_refl)
    as (sid & out & Hsid & C & L).
  exists out. split; [exact C|].
  assert (E : sid = lit "myserver").
  { assert (X : extract_server_id scenario_pipeline = Some (lit "myserver"))
      by (vm_compute; reflexivity).
    rewrite X in Hsid. injection Hsid as <-. reflexivity. }
  subst sid. apply L. reflexivity.
Defined.

(** ** The command line *)

(** Normalizing and converting an escaped pipeline gives the document of the
    pipeline itself. *)
Theorem migrate_xml_escape (t : str) :
  migrate (xml_escape t) = converted t default_server_url default_server_user.
Proof. unfold migrate. rewrite decode_escaped. reflexivity. Qed.

Lemma convert_pipeline_returns (content url user : str) :
  exists printed out,
    convert_pipeline content url user = (printed, Some out) /\
    converted content url user = Some out.
Proof.
  destruct (converted_total content url user)
    as (sid & pat & tgt & _ & _ & _ & C). cbv zeta in C.
  eexists (fst (convert_pipeline content url user)), _.
  split; [|exact C].
  rewrite (surjective_pairing (convert_pipeline content url user)) at 1.
  f_equal. exact C.
Qed.





(** Whatever the arguments and the file system, [main] calls [write_text]
    at most once, for the second path, and with the conversion of the
    normalized text of the first path; it writes nothing unless the input
    exists and was read. *)
Theorem main_writes_only_conversion (argv : list str) (w : world) :
  length (writes (main argv w)) <= 1 /\
  forall p s, In (p, s) (writes (main argv w)) ->
    p = nth 2 argv [] /\
    3 <= length argv /\
    path_exists w (nth 1 argv []) = true /\
    exists content,
      read_text w (nth 1 argv []) = Some content /\
      migrate content = Some s.
Proof.
  unfold main. destruct (length argv <? 3) eqn:L;
    [simpl; split; [lia | intros p s []]|].
  apply Nat.ltb_ge in L.
  destruct (path_exists w (nth 1 argv [])) eqn:E;
    [|simpl; split; [lia | intros p s []]].
  cbn [negb].
  destruct (read_text w (nth 1 argv [])) as [content|] eqn:R;
    [|simpl; split; [lia | intros p s []]].
  destruct (convert_pipeline_returns (decode_html_entities content)
              default_server_url default_server_user)
    as (printed & out & -> & C).
  assert (H : forall p s, In (p, s) [(nth 2 argv [], out)] ->
     p = nth 2 argv [] /\ 3 <= length argv /\ true = true /\
     exists content0, Some content = Some content0 /\
                      migrate content0 = Some s).
  { intros p s [H|[]]. injection H as <- <-.
    repeat split; auto. exists content. auto. }
  destruct (write_ok w (nth 2 argv []) out); cbn [outcome writes length];
    split; auto.
Qed.

Lemma main_writes_only_conversion_witness :
  let argv := [lit "migrate_artifactory_to_jfrog.py"; lit "Jenkinsfile.old";
               lit "Jenkinsfile.migrated"] in
  let w := one_file_world (lit "Jenkinsfile.old") (lit "node { }") in
  exists s,
    In (lit "Jenkinsfile.migrated", s) (writes (main argv w)) /\
    migrate (lit "node { }") = Some s.
Proof.
  intros argv w.
  destruct (main_writes_only_conversion argv w) as (_ & H).
  assert (I : exists s, In (lit "Jenkinsfile.migrated", s)
                          (writes (main argv w))).
  { eexists. left. reflexivity. }
  destruct I as (s & I). exists s. split; [exact I|].
  destruct (H _ _ I) as (_ & _ & _ & content & R & M).
  assert (X : read_text w (nth 1 argv []) = Some (lit "node { }"))
    by reflexivity.
  rewrite X in R. injection R as <-. exact M.
Defined.


